(** * typescript-mcp: the hover tool and the move-file tool

    A shallow embedding of [lsp_get_hover] (the hover tool) and of
    [ts/tools/ts_move_file.ts] (the move-file tool), and the properties
    of their result formatting, error handling and call ordering.

    JavaScript strings are sequences of UTF-16 code units, so a string is
    modelled as a list of code units ([N]); [length], [indexOf], the
    regular expression and [split] all work on code units, as they do in
    the engine.  Line and character numbers are LSP [uinteger]s, far
    below 2^53, so the double arithmetic of the source is exact on them
    and they are modelled as [nat]. *)

From Stdlib Require Import String Ascii List NArith ZArith Arith Bool Lia.
From Stdlib Require Import DecimalString Sorted.
Import ListNotations.

Set Implicit Arguments.

(* ================================================================== *)
(** ** JavaScript strings *)
(* ================================================================== *)

Module JS.

Definition char := N.
Definition jsstring := list char.

(** A string literal of the source (ASCII only). *)
Definition lit (s : string) : jsstring :=
  map N_of_ascii (list_ascii_of_string s).
Arguments lit s%_string.

(** [a === b] on strings. *)
Fixpoint eqb (a b : jsstring) : bool :=
  match a, b with
  | [], [] => true
  | x :: a', y :: b' => N.eqb x y && eqb a' b'
  | _, _ => false
  end.

(** [Array.prototype.join]. *)
Fixpoint join (sep : jsstring) (l : list jsstring) : jsstring :=
  match l with
  | [] => []
  | [x] => x
  | x :: rest => x ++ sep ++ join sep rest
  end.

Definition LF : char := 10%N.

(** [s.split("\n")]: never empty, the empty string gives [[""]]. *)
Fixpoint split_lines (s : jsstring) : list jsstring :=
  match s with
  | [] => [[]]
  | c :: r =>
      if N.eqb c LF then [] :: split_lines r
      else match split_lines r with
           | l :: ls => (c :: l) :: ls
           | [] => [[c]]
           end
  end.

(** [String(n)] for a non-negative integer. *)
Definition String_of_nat (n : nat) : jsstring :=
  lit (NilEmpty.string_of_uint (Nat.to_uint n)).

(** [s.startsWith(p)]. *)
Fixpoint startsWith (s p : jsstring) : bool :=
  match p, s with
  | [], _ => true
  | x :: p', y :: s' => N.eqb x y && startsWith s' p'
  | _ :: _, [] => false
  end.

(** [s.indexOf(p)], [None] for -1. *)
Fixpoint indexOf (s p : jsstring) : option nat :=
  if startsWith s p then Some 0
  else match s with
       | [] => None
       | _ :: s' => option_map S (indexOf s' p)
       end.

(** [s.includes(p)]. *)
Definition includes (s p : jsstring) : bool :=
  match indexOf s p with Some _ => true | None => false end.

Definition DOLLAR : char := 36%N.
Definition AMPERSAND : char := 38%N.
Definition APOSTROPHE : char := 39%N.
Definition BACKTICK : char := 96%N.
Definition DQUOTE : char := 34%N.
Definition BACKSLASH : char := 92%N.
Definition SLASH : char := 47%N.
Definition LPAREN : char := 40%N.
Definition RPAREN : char := 41%N.

(** GetSubstitution for a string pattern (no capture groups): in the
    replacement text [$$] is a dollar, [$&] the matched text, [$`] the
    text before the match and [$'] the text after it; every other
    dollar is literal. *)
Fixpoint getSubstitution (matched before after repl : jsstring) : jsstring :=
  match repl with
  | [] => []
  | c :: r =>
      if N.eqb c DOLLAR then
        match r with
        | [] => [c]
        | d :: r' =>
            if N.eqb d DOLLAR then DOLLAR :: getSubstitution matched before after r'
            else if N.eqb d AMPERSAND then matched ++ getSubstitution matched before after r'
            else if N.eqb d BACKTICK then before ++ getSubstitution matched before after r'
            else if N.eqb d APOSTROPHE then after ++ getSubstitution matched before after r'
            else c :: getSubstitution matched before after r
        end
      else c :: getSubstitution matched before after r
  end.

(** [s.replace(pattern, repl)] with a string pattern: the first
    occurrence only; [s] itself when the pattern does not occur. *)
Definition replace (s pattern repl : jsstring) : jsstring :=
  match indexOf s pattern with
  | None => s
  | Some i =>
      let before := firstn i s in
      let after := skipn (i + length pattern) s in
      before ++ getSubstitution pattern before after repl ++ after
  end.

(** [s.replace(/\\/g, "/")]. *)
Definition backslashes_to_slashes (s : jsstring) : jsstring :=
  map (fun c => if N.eqb c BACKSLASH then SLASH else c) s.

(** The longest prefix of characters that satisfy [f], and the rest. *)
Fixpoint takeWhile (f : char -> bool) (s : jsstring) : jsstring :=
  match s with
  | c :: r => if f c then c :: takeWhile f r else []
  | [] => []
  end.

Fixpoint dropWhile (f : char -> bool) (s : jsstring) : jsstring :=
  match s with
  | c :: r => if f c then dropWhile f r else s
  | [] => []
  end.

End JS.

Import JS.

(** neverthrow's [Result]. *)
Inductive Result (T E : Type) : Type :=
| ok (value : T)
| err (error : E).
Arguments ok {T E} value.
Arguments err {T E} error.

Definition isErr {T E} (r : Result T E) : bool :=
  match r with ok _ => false | err _ => true end.

(* ================================================================== *)
(** ** The hover tool: response types and formatHoverContents *)
(* ================================================================== *)

(** [MarkedString = string | { language, value }]. *)
Inductive MarkedString : Type :=
| MarkedPlain (s : jsstring)
| MarkedCode (language value : jsstring).

Inductive MarkupKind : Type := plaintext | markdown.

(** [contents: MarkedString | MarkedString[] | MarkupContent]. *)
Inductive HoverContents : Type :=
| ContentsMarked (m : MarkedString)
| ContentsArray (l : list MarkedString)
| ContentsMarkup (kind : MarkupKind) (value : jsstring).

Definition fragmentValue (content : MarkedString) : jsstring :=
  match content with
  | MarkedPlain s => s
  | MarkedCode _ value => value
  end.

(** The final [return ""] of the source is for values outside the
    declared type of [contents]; no tag reaches it. *)
Definition formatHoverContents (contents : HoverContents) : jsstring :=
  match contents with
  | ContentsMarked (MarkedPlain s) => s
  | ContentsArray l => join [LF] (map fragmentValue l)
  | ContentsMarked (MarkedCode _ value) => value
  | ContentsMarkup _ value => value
  end.


(* ================================================================== *)
(** ** Exceptions and state *)
(* ================================================================== *)

(** A computation over a world [W] that returns a value or throws; a
    thrown value is represented by the text that the [catch] clauses of
    the source extract from it
    ([error instanceof Error ? error.message : String(error)]). *)
Definition M (W A : Type) : Type := W -> Result A jsstring * W.

Definition ret {W A} (a : A) : M W A := fun w => (ok a, w).

Definition bind {W A B} (m : M W A) (k : A -> M W B) : M W B :=
  fun w =>
    match m w with
    | (ok a, w') => k a w'
    | (err e, w') => (err e, w')
    end.

Declare Scope js_scope.
Delimit Scope js_scope with js.
Notation "x <- m ;; k" := (bind m (fun x => k))
  (at level 61, m at next level, right associativity) : js_scope.
Notation "m ;; k" := (bind m (fun _ => k))
  (at level 61, right associativity) : js_scope.

(** A pure call that may throw. *)
Definition Thrown (A : Type) : Type := Result A jsstring.

Definition lift {W A} (t : Thrown A) : M W A := fun w => (t, w).

(** [try { return body } catch (error) { return err(message) }]. *)
Definition try_catch {W T} (body : M W (Result T jsstring))
  : W -> Result T jsstring * W :=
  fun w =>
    match body w with
    | (ok r, w') => (r, w')
    | (err e, w') => (err e, w')
    end.

(** The functions of Node's [path] module that the tools call.  The
    module is not part of the repository; the tools are verified for
    every implementation of it. *)
Record PathApi : Type := {
  path_join : jsstring -> jsstring -> jsstring;
  path_resolve : jsstring -> jsstring -> jsstring;
  path_dirname : jsstring -> jsstring;
  path_normalize : jsstring -> jsstring;
  path_basename : jsstring -> jsstring -> jsstring;
  path_extname : jsstring -> jsstring;
  path_relative : jsstring -> jsstring -> jsstring
}.

(* ================================================================== *)
(** ** The hover tool *)
(* ================================================================== *)

Record Position : Type := { line : nat; character : nat }.

Record Range : Type := { range_start : Position; range_end : Position }.

Record HoverResult : Type := {
  contents : HoverContents;
  range : option Range
}.

Record Hover : Type := {
  hover_contents : jsstring;
  hover_range : option Range
}.

Record GetHoverSuccess : Type := {
  message : jsstring;
  hover : option Hover
}.

(** [line: number | string]. *)
Inductive LineSpec : Type :=
| LineNumber (n : Z)
| LineText (s : jsstring).

Record GetHoverRequest : Type := {
  root : jsstring;
  filePath : jsstring;
  req_line : option LineSpec;
  target : jsstring
}.

(** What the tool asks of the language server, in the order asked. *)
Inductive ServerCall : Type :=
| OpenDocument (uri text : jsstring)
| Delay (ms : nat)
| GetHover (uri : jsstring) (pos : Position).

Section HoverTool.

Variable path : PathApi.

(** The language server behind the active client: a state of its own,
    changed by [openDocument] and read by [getHover]. *)
Variable ServerState : Type.
Variable client_openDocument :
  jsstring -> jsstring -> M ServerState unit.
Variable client_getHover :
  jsstring -> Position -> M ServerState (option HoverResult).

(** The resolver helpers of [text_utils], which return
    [{ lineIndex } | { error }] and the like. *)
Variable parseLineNumber :
  list jsstring -> LineSpec -> Thrown (Result nat jsstring).
Variable findSymbolInLine :
  option jsstring -> jsstring -> Thrown (Result nat jsstring).
Variable findTargetInFile :
  list jsstring -> jsstring -> Thrown (Result (nat * nat) jsstring).

Record HoverWorld : Type := {
  (** [getActiveClient()] returns the client or throws *)
  activeClient : Thrown unit;
  (** [readFileSync(p, "utf-8")] returns the text or throws *)
  files : jsstring -> Thrown jsstring;
  server : ServerState;
  calls : list ServerCall
}.

Definition getActiveClient : M HoverWorld unit :=
  fun w => (activeClient w, w).

Definition readFileSync (p : jsstring) : M HoverWorld jsstring :=
  fun w => (files w p, w).

Definition record_call (c : ServerCall) (w : HoverWorld) : HoverWorld :=
  {| activeClient := activeClient w; files := files w;
     server := server w; calls := calls w ++ [c] |}.

Definition on_server {A} (c : ServerCall) (m : M ServerState A)
  : M HoverWorld A :=
  fun w =>
    let w1 := record_call c w in
    let (r, s) := m (server w1) in
    (r, {| activeClient := activeClient w1; files := files w1;
           server := s; calls := calls w1 |}).

Definition openDocument (uri text : jsstring) : M HoverWorld unit :=
  on_server (OpenDocument uri text) (client_openDocument uri text).

(** [await new Promise((resolve) => setTimeout(resolve, ms))].  The
    wait is recorded and nothing else happens: the files of the world
    stay as they were, although on a real disk they can change in the
    meantime.  What is proved of the second read of the file, in the
    fallback range of [formatHoverResult], is therefore stated at that
    read, and the end-to-end results are stated for answers that need
    no second read. *)
Definition delay (ms : nat) : M HoverWorld unit :=
  fun w => (ok tt, record_call (Delay ms) w).

Definition getHover_call (uri : jsstring) (pos : Position)
  : M HoverWorld (option HoverResult) :=
  on_server (GetHover uri pos) (client_getHover uri pos).

Local Open Scope js_scope.

(** The tail shared by both messages:
    [ for "${target}" at ${filePath}:${targetLine + 1}:${symbolPosition + 1}]. *)
Definition locationText (request : GetHoverRequest)
    (targetLine symbolPosition : nat) : jsstring :=
  lit " for " ++ [DQUOTE] ++ target request ++ [DQUOTE] ++ lit " at "
    ++ filePath request ++ lit ":" ++ String_of_nat (targetLine + 1)
    ++ lit ":" ++ String_of_nat (symbolPosition + 1).

Definition oneBased (p : Position) : Position :=
  {| line := line p + 1; character := character p + 1 |}.

(** [lines[lines.length - 1]?.length || 0]. *)
Definition lastLineLength (lines : list jsstring) : nat :=
  match nth_error lines (List.length lines - 1) with
  | Some l => List.length l
  | None => 0
  end.

Definition formatHoverResult (result : option HoverResult)
    (request : GetHoverRequest) (targetLine symbolPosition : nat)
  : M HoverWorld (Result GetHoverSuccess jsstring) :=
  match result with
  | None =>
      ret (ok {| message := lit "No hover information available"
                              ++ locationText request targetLine symbolPosition;
                 hover := None |})
  | Some result =>
      let formattedContents := formatHoverContents (contents result) in
      range <-
        match range result with
        | Some r =>
            ret {| range_start := oneBased (range_start r);
                   range_end := oneBased (range_end r) |}
        | None =>
            let absolutePath :=
              path_resolve path (root request) (filePath request) in
            fileContent <- readFileSync absolutePath ;;
            let lines := split_lines fileContent in
            ret {| range_start := {| line := 1; character := 1 |};
                   range_end := {| line := List.length lines;
                                   character := lastLineLength lines |} |}
        end ;;
      ret (ok {| message := lit "Hover information"
                              ++ locationText request targetLine symbolPosition;
                 hover := Some {| hover_contents := formattedContents;
                                  hover_range := Some range |} |})
  end.

(** The server steps, written out once: [getHoverWithoutLine] and
    [getHover] end with the same five statements (open the document,
    await the delay, query, format). *)
Definition queryServer (request : GetHoverRequest)
    (fileUri fileContent : jsstring) (targetLine symbolPosition : nat)
  : M HoverWorld (Result GetHoverSuccess jsstring) :=
  openDocument fileUri fileContent ;;
  delay 1000 ;;
  result <- getHover_call fileUri
              {| line := targetLine; character := symbolPosition |} ;;
  formatHoverResult result request targetLine symbolPosition.

Definition getHoverWithoutLine (request : GetHoverRequest)
  : HoverWorld -> Result GetHoverSuccess jsstring * HoverWorld :=
  try_catch (
    getActiveClient ;;
    let absolutePath :=
      path_resolve path (root request) (filePath request) in
    fileContent <- readFileSync absolutePath ;;
    let fileUri := lit "file://" ++ absolutePath in
    let lines := split_lines fileContent in
    targetResult <- lift (findTargetInFile lines (target request)) ;;
    match targetResult with
    | err error => ret (err (error ++ lit " in " ++ filePath request))
    | ok (targetLine, symbolPosition) =>
        queryServer request fileUri fileContent targetLine symbolPosition
    end).

Definition getHover (request : GetHoverRequest)
  : HoverWorld -> Result GetHoverSuccess jsstring * HoverWorld :=
  match req_line request with
  | None => getHoverWithoutLine request
  | Some lineSpec =>
      try_catch (
        getActiveClient ;;
        let absolutePath :=
          path_resolve path (root request) (filePath request) in
        fileContent <- readFileSync absolutePath ;;
        let fileUri := lit "file://" ++ absolutePath in
        let lines := split_lines fileContent in
        lineResult <- lift (parseLineNumber lines lineSpec) ;;
        match lineResult with
        | err error => ret (err (error ++ lit " in " ++ filePath request))
        | ok targetLine =>
            let lineText := nth_error lines targetLine in
            symbolResult <- lift (findSymbolInLine lineText (target request)) ;;
            match symbolResult with
            | err error =>
                ret (err (error ++ lit " on line "
                            ++ String_of_nat (targetLine + 1)))
            | ok symbolPosition =>
                queryServer request fileUri fileContent
                  targetLine symbolPosition
            end
        end)
  end.

End HoverTool.

(* ================================================================== *)
(** ** The move-file tool: the import pattern *)
(* ================================================================== *)

(** [importRegex = /(?:import|from|require)\s*\(?[Q]([^Q]+)[Q]\)?/g],
    where [Q] stands for the three quote characters of the source: the
    apostrophe, the double quote and the backtick.

    The pattern never has to backtrack: the three keywords start with
    different letters, so at most one alternative applies at a position;
    a run taken by [\s*] or by [[^Q]+] cannot be shortened with
    success, because the next item of the pattern would then have to
    match a character of the run (a white space is neither a parenthesis
    nor a quote, a non-quote is not a quote); and an opening parenthesis
    that is present cannot be left to the quote item.  The matcher below
    therefore takes each item greedily, once. *)
Module ImportRegex.

(** [\s]: WhiteSpace and LineTerminator code units. *)
Definition isWhiteSpace (c : char) : bool :=
  existsb (N.eqb c)
    [9; 10; 11; 12; 13; 32; 160; 5760; 8232; 8233; 8239; 8287; 12288; 65279]%N
  || (N.leb 8192 c && N.leb c 8202).

(** The class [[Q]]. *)
Definition isQuote (c : char) : bool :=
  N.eqb c APOSTROPHE || N.eqb c DQUOTE || N.eqb c BACKTICK.

Definition notQuote (c : char) : bool := negb (isQuote c).

Fixpoint stripPrefix (p s : jsstring) : option jsstring :=
  match p, s with
  | [], _ => Some s
  | x :: p', y :: s' => if N.eqb x y then stripPrefix p' s' else None
  | _ :: _, [] => None
  end.

(** [(?:import|from|require)]: what follows the keyword. *)
Definition keyword (s : jsstring) : option jsstring :=
  match stripPrefix (lit "import") s with
  | Some r => Some r
  | None =>
      match stripPrefix (lit "from") s with
      | Some r => Some r
      | None => stripPrefix (lit "require") s
      end
  end.

(** [c?]: what follows the optional character. *)
Definition optional (c : char) (s : jsstring) : jsstring :=
  match s with
  | x :: r => if N.eqb x c then r else s
  | [] => s
  end.

(** A match that starts at the head of [s]: the captured group 1 and
    the length of the whole match. *)
Definition matchHere (s : jsstring) : option (jsstring * nat) :=
  match keyword s with
  | None => None
  | Some s1 =>
      let s2 := dropWhile isWhiteSpace s1 in
      let s3 := optional LPAREN s2 in
      match s3 with
      | q :: s4 =>
          if isQuote q then
            let importPath := takeWhile notQuote s4 in
            match importPath, dropWhile notQuote s4 with
            | _ :: _, _ :: s6 =>
                let s7 := optional RPAREN s6 in
                Some (importPath, List.length s - List.length s7)
            | _, _ => None
            end
          else None
      | [] => None
      end
  end.

(** What the pattern itself says: [s] starts with a keyword, white
    space, at most one opening parenthesis, a quote, the non-empty
    quote-free [importPath], a quote and at most one closing
    parenthesis, [len] characters in all. *)
Inductive PatternMatch (s importPath : jsstring) (len : nat) : Prop :=
| pattern_match (kw ws lp rp rest : jsstring) (q1 q2 : char) :
    In kw [lit "import"; lit "from"; lit "require"] ->
    forallb isWhiteSpace ws = true ->
    lp = [] \/ lp = [LPAREN] ->
    isQuote q1 = true ->
    importPath <> [] ->
    forallb notQuote importPath = true ->
    isQuote q2 = true ->
    rp = [] \/ rp = [RPAREN] ->
    s = kw ++ ws ++ lp ++ [q1] ++ importPath ++ [q2] ++ rp ++ rest ->
    len = List.length (kw ++ ws ++ lp ++ [q1] ++ importPath ++ [q2] ++ rp) ->
    PatternMatch s importPath len.

(** The leftmost match in [s], the text from index [pos] on: the
    capture and the index just after the match. *)
Fixpoint search (s : jsstring) (pos : nat) : option (jsstring * nat) :=
  match matchHere s with
  | Some (importPath, len) => Some (importPath, pos + len)
  | None =>
      match s with
      | [] => None
      | _ :: r => search r (S pos)
      end
  end.

(** [importRegex.exec(line)] for the global pattern: the search starts
    at [lastIndex]; a match moves [lastIndex] to its end, a failure
    resets it to 0.  Returns [match[1]] and the new [lastIndex]. *)
Definition exec (line : jsstring) (lastIndex : nat) : option jsstring * nat :=
  if List.length line <? lastIndex then (None, 0)
  else
    match search (skipn lastIndex line) lastIndex with
    | Some (importPath, e) => (Some importPath, e)
    | None => (None, 0)
    end.

(** [while ((match = importRegex.exec(line)) !== null) { body }] with
    [body] pushing [perMatch match[1]] onto [matches]. *)
Fixpoint execLoop (fuel : nat) (perMatch : jsstring -> list jsstring)
    (line : jsstring) (lastIndex : nat) (matches : list jsstring)
  : list jsstring * nat :=
  match fuel with
  | 0 => (matches, lastIndex)
  | S fuel' =>
      match exec line lastIndex with
      | (None, lastIndex') => (matches, lastIndex')
      | (Some importPath, lastIndex') =>
          execLoop fuel' perMatch line lastIndex'
            (matches ++ perMatch importPath)
      end
  end.

(** A match is never empty and [lastIndex] never passes the end of the
    line, so a line of [n] characters is done in at most [n + 1] calls
    of [exec]. *)
Definition loopFuel (line : jsstring) : nat := S (List.length line).

(** The import paths that the loop visits on a line, in order. *)
Definition importPaths (line : jsstring) : list jsstring :=
  fst (execLoop (loopFuel line) (fun importPath => [importPath]) line 0 []).

End ImportRegex.

Import ImportRegex.

(* ================================================================== *)
(** ** The move-file tool: the change report *)
(* ================================================================== *)

Record MoveFileResult : Type := {
  move_message : jsstring;
  changedFiles : list jsstring
}.

(** [fs.readFile(file, "utf-8")], settled: the text, or the rejection. *)
Definition FileReader : Type := jsstring -> Result jsstring jsstring.

Definition placeholder : jsstring := lit "    Import statements updated".

(** A report line that starts with four spaces. *)
Definition indented (l : jsstring) : Prop :=
  startsWith l (lit "    ") = true.

(** The arrow of the [File moved] line, U+2192, between two spaces. *)
Definition arrow : jsstring := [32; 8594; 32]%N.

Section MoveReport.

Variable path : PathApi.
Variable readFile : FileReader.

(** The test of the [if] inside the loop. *)
Definition refersToMovedFile (file newPath importPath : jsstring) : bool :=
  let fileDir := path_dirname path file in
  let resolvedNewPath := path_resolve path fileDir importPath in
  let normalizedNewPath := path_normalize path newPath in
  JS.eqb resolvedNewPath normalizedNewPath
  || includes importPath
       (path_basename path newPath (path_extname path newPath)).

(** [oldLine] of the source. *)
Definition reconstructOldLine (file oldPath line importPath : jsstring)
  : jsstring :=
  let fileDir := path_dirname path file in
  let relativeOldPath :=
    backslashes_to_slashes (path_relative path fileDir oldPath) in
  replace line importPath
    (if startsWith relativeOldPath (lit ".")
     then relativeOldPath
     else lit "./" ++ relativeOldPath).

Definition diffFragment (lineNum : nat) (oldLine line : jsstring)
  : list jsstring :=
  [ lit "    @@ -" ++ String_of_nat lineNum ++ lit ",1 +"
      ++ String_of_nat lineNum ++ lit ",1 @@";
    lit "    - " ++ oldLine;
    lit "    + " ++ line ].

(** The body of the [while] loop: what one match pushes. *)
Definition matchFragment (file oldPath newPath line : jsstring)
    (lineNum : nat) (importPath : jsstring) : list jsstring :=
  if refersToMovedFile file newPath importPath then
    let oldLine := reconstructOldLine file oldPath line importPath in
    if negb (JS.eqb oldLine line) then diffFragment lineNum oldLine line
    else []
  else [].

(** [lines.flatMap((line, i) => ...)]; the pattern object is created
    once, outside the callback, so its [lastIndex] is carried from one
    line to the next. *)
Fixpoint scanLines (file oldPath newPath : jsstring)
    (lines : list jsstring) (i lastIndex : nat) : list jsstring * nat :=
  match lines with
  | [] => ([], lastIndex)
  | line :: rest =>
      let lineNum := i + 1 in
      let (matches, lastIndex') :=
        execLoop (loopFuel line)
          (matchFragment file oldPath newPath line lineNum)
          line lastIndex [] in
      let (more, lastIndex'') :=
        scanLines file oldPath newPath rest (S i) lastIndex' in
      (matches ++ more, lastIndex'')
  end.

Definition analyzeImportChanges (file oldPath newPath : jsstring)
  : Result (list jsstring) jsstring :=
  match readFile file with
  | err _ => ok [placeholder]
  | ok content =>
      let lines := split_lines content in
      let importChanges :=
        fst (scanLines file oldPath newPath lines 0 0) in
      ok (if 0 <? List.length importChanges
          then importChanges else [placeholder])
  end.

(** The callback of [changedFiles.map]. *)
Definition fileResult (oldPath newPath root oldRelativePath
    newRelativePath file : jsstring) : Result (list jsstring) jsstring :=
  if JS.eqb file oldPath then
    ok [lit "  File moved: " ++ oldRelativePath ++ arrow ++ newRelativePath]
  else
    let relativePath := path_relative path root file in
    match analyzeImportChanges file oldPath newPath with
    | err error => err error
    | ok value => ok ((lit "  " ++ relativePath ++ lit ":") :: value)
    end.

(** The [for] loop over [fileResults]. *)
Fixpoint collectResults (fileResults : list (Result (list jsstring) jsstring))
    (output : list jsstring) : Result (list jsstring) jsstring :=
  match fileResults with
  | [] => ok output
  | err error :: _ => err error
  | ok value :: rest => collectResults rest (output ++ value)
  end.

Definition formatMoveFileResult (result : MoveFileResult)
    (oldPath newPath root : jsstring) : Result jsstring jsstring :=
  let output :=
    [ move_message result ++ lit ". Updated imports in "
        ++ String_of_nat (List.length (changedFiles result))
        ++ lit " file(s).";
      [];
      lit "Changes:" ] in
  let oldRelativePath := path_relative path root oldPath in
  let newRelativePath := path_relative path root newPath in
  let fileResults :=
    map (fileResult oldPath newPath root oldRelativePath newRelativePath)
      (changedFiles result) in
  match collectResults fileResults output with
  | err error => err error
  | ok output => ok (join [LF] output)
  end.

End MoveReport.

(* ================================================================== *)
(** ** The move-file tool: handleMoveFile *)
(* ================================================================== *)

Record MoveRequest : Type := {
  move_root : jsstring;
  oldPath : jsstring;
  newPath : jsstring;
  overwrite : bool
}.

Record MoveOptions : Type := {
  oldFilename : jsstring;
  newFilename : jsstring;
  opt_overwrite : bool
}.

(** What the tool asks of the project model, in the order asked. *)
Inductive ProjectCall : Type :=
| FindProjectForFile (file : jsstring)
| GetOrCreateSourceFileWithRefresh (file : jsstring)
| MoveFile (options : MoveOptions)
| Save.

Section MoveTool.

Local Open Scope js_scope.

Variable path : PathApi.

(** The project model works on source files held in memory ([Memory]);
    the files on disk ([Disk]) are read when a source file is loaded
    and written by [project.save()] alone. *)
Variables Project Memory Disk : Type.
Variable project_find : jsstring -> M Memory Project.
Variable project_refresh : jsstring -> Disk -> M Memory unit.
Variable project_move :
  Project -> MoveOptions -> M Memory (Result MoveFileResult jsstring).
Variable project_save : Project -> Memory -> M Disk unit.

Record MoveWorld : Type := {
  memory : Memory;
  disk : Disk;
  project_calls : list ProjectCall
}.

Definition in_memory {A} (c : ProjectCall) (m : M Memory A)
  : M MoveWorld A :=
  fun w =>
    let (r, mem) := m (memory w) in
    (r, {| memory := mem; disk := disk w;
           project_calls := project_calls w ++ [c] |}).

Definition findProjectForFile (file : jsstring) : M MoveWorld Project :=
  in_memory (FindProjectForFile file) (project_find file).

Definition getOrCreateSourceFileWithRefresh (file : jsstring)
  : M MoveWorld unit :=
  fun w =>
    in_memory (GetOrCreateSourceFileWithRefresh file)
      (project_refresh file (disk w)) w.

Definition moveFile (project : Project) (options : MoveOptions)
  : M MoveWorld (Result MoveFileResult jsstring) :=
  in_memory (MoveFile options) (project_move project options).

Definition save (project : Project) : M MoveWorld unit :=
  fun w =>
    let (r, d) := project_save project (memory w) (disk w) in
    (r, {| memory := memory w; disk := d;
           project_calls := project_calls w ++ [Save] |}).

(** The outer [Result] is the settled promise (an [err] there is a
    rejection), the inner one the value the function returns. *)
Definition handleMoveFile (request : MoveRequest)
  : M MoveWorld (Result MoveFileResult jsstring) :=
  let absoluteOldPath :=
    path_join path (move_root request) (oldPath request) in
  let absoluteNewPath :=
    path_join path (move_root request) (newPath request) in
  project <- findProjectForFile absoluteOldPath ;;
  fun w =>
    let (loaded, w1) := getOrCreateSourceFileWithRefresh absoluteOldPath w in
    let sourceFileResult : Result unit jsstring :=
      match loaded with
      | ok _ => ok tt
      | err _ => err (lit "File not found: " ++ absoluteOldPath)
      end in
    match sourceFileResult with
    | err error => ret (err error) w1
    | ok _ =>
        (result <- moveFile project
                     {| oldFilename := absoluteOldPath;
                        newFilename := absoluteNewPath;
                        opt_overwrite := overwrite request |} ;;
         match result with
         | err error => ret (err error)
         | ok value =>
             save project ;;
             ret (ok value)
         end) w1
    end.

End MoveTool.

(* ================================================================== *)
(** ** A POSIX instance of the path functions *)
(* ================================================================== *)

(** Node's [path.posix] for a given working directory, as far as the
    tools use it; the instance at which the properties below are
    evaluated on concrete requests. *)
Module Posix.

Definition isSlash (c : char) : bool := N.eqb c SLASH.
Definition notSlash (c : char) : bool := negb (isSlash c).
Definition DOT : char := 46%N.

Definition isAbsolute (p : jsstring) : bool :=
  match p with c :: _ => isSlash c | [] => false end.

Definition endsWithSlash (p : jsstring) : bool :=
  match rev p with c :: _ => isSlash c | [] => false end.

(** The non-empty segments between slashes. *)
Fixpoint segments_from (p cur : jsstring) : list jsstring :=
  match p with
  | [] => match cur with [] => [] | _ => [rev cur] end
  | c :: r =>
      if isSlash c
      then match cur with
           | [] => segments_from r []
           | _ => rev cur :: segments_from r []
           end
      else segments_from r (c :: cur)
  end.

Definition segments (p : jsstring) : list jsstring := segments_from p [].

(** [normalizeString]: resolves [.] and [..]; [stack] is reversed. *)
Fixpoint normalizeSegments (allowAboveRoot : bool)
    (segs stack : list jsstring) : list jsstring :=
  match segs with
  | [] => rev stack
  | x :: r =>
      if JS.eqb x (lit ".") then normalizeSegments allowAboveRoot r stack
      else if JS.eqb x (lit "..") then
        match stack with
        | top :: stack' =>
            if JS.eqb top (lit "..")
            then normalizeSegments allowAboveRoot r (x :: stack)
            else normalizeSegments allowAboveRoot r stack'
        | [] =>
            if allowAboveRoot
            then normalizeSegments allowAboveRoot r [x]
            else normalizeSegments allowAboveRoot r []
        end
      else normalizeSegments allowAboveRoot r (x :: stack)
  end.

Definition normalize (p : jsstring) : jsstring :=
  let absolute := isAbsolute p in
  let body :=
    join [SLASH] (normalizeSegments (negb absolute) (segments p) []) in
  match body with
  | [] =>
      if absolute then [SLASH]
      else if endsWithSlash p then lit "./" else lit "."
  | _ =>
      let body' := if endsWithSlash p then body ++ [SLASH] else body in
      if absolute then SLASH :: body' else body'
  end.

Definition joinArgs (args : list jsstring) : jsstring :=
  match filter (fun a => negb (JS.eqb a [])) args with
  | [] => lit "."
  | parts => normalize (join [SLASH] parts)
  end.

(** [path.resolve(...args)] in the working directory [cwd] (absolute). *)
Definition resolveArgs (cwd : jsstring) (args : list jsstring) : jsstring :=
  let parts :=
    fold_left (fun acc p => if isAbsolute p then [p] else acc ++ [p])
      (cwd :: args) [] in
  SLASH :: join [SLASH]
             (normalizeSegments false (flat_map segments parts) []).

Definition dirname (p : jsstring) : jsstring :=
  match p with
  | [] => lit "."
  | _ :: rest =>
      let r := dropWhile notSlash
                 (dropWhile isSlash (rev rest)) in
      match r with
      | [] => if isAbsolute p then [SLASH] else lit "."
      | _ =>
          let e := List.length r in
          if isAbsolute p && (e =? 1) then lit "//" else firstn e p
      end
  end.

Definition basename (p ext : jsstring) : jsstring :=
  if negb (JS.eqb ext []) && JS.eqb ext p then []
  else
    let base := last (segments p) [] in
    if negb (JS.eqb ext [])
       && startsWith (rev base) (rev ext)
       && (List.length ext <? List.length base)
    then firstn (List.length base - List.length ext) base
    else base.

Definition extname (p : jsstring) : jsstring :=
  let base := last (segments p) [] in
  let afterDotRev := takeWhile (fun c => negb (N.eqb c DOT)) (rev base) in
  let d := List.length base - List.length afterDotRev in
  (* [d] is the index just after the last dot, 0 when there is none *)
  if (d <=? 1) || JS.eqb base (lit "..") then []
  else skipn (d - 1) base.

Fixpoint dropCommon (a b : list jsstring) : list jsstring * list jsstring :=
  match a, b with
  | x :: a', y :: b' => if JS.eqb x y then dropCommon a' b' else (a, b)
  | _, _ => (a, b)
  end.

Definition relative (cwd from to : jsstring) : jsstring :=
  let from' := resolveArgs cwd [from] in
  let to' := resolveArgs cwd [to] in
  let (up, down) := dropCommon (segments from') (segments to') in
  join [SLASH] (map (fun _ => lit "..") up ++ down).

Definition api (cwd : jsstring) : PathApi :=
  {| path_join := fun a b => joinArgs [a; b];
     path_resolve := fun a b => resolveArgs cwd [a; b];
     path_dirname := dirname;
     path_normalize := normalize;
     path_basename := basename;
     path_extname := extname;
     path_relative := relative cwd |}.

End Posix.

(* ================================================================== *)
(** ** The symbol resolver *)
(* ================================================================== *)

Module Resolver.

(** A word character: a letter, a digit or the underscore. *)
Definition isWordChar (c : char) : bool :=
  (N.leb 48 c && N.leb c 57) || (N.leb 65 c && N.leb c 90)
  || (N.leb 97 c && N.leb c 122) || N.eqb c 95.

(** [target] occurs in [line] at index [i]. *)
Definition occursAt (line target : jsstring) (i : nat) : bool :=
  (i <=? List.length line) && startsWith (skipn i line) target.

(** The character at index [i] exists and is a word character. *)
Definition wordAt (line : jsstring) (i : nat) : bool :=
  match nth_error line i with
  | Some c => isWordChar c
  | None => false
  end.

(** The occurrence at [i] is a whole token: no word character touches
    it on either side. *)
Definition wholeTokenAt (line target : jsstring) (i : nat) : bool :=
  occursAt line target i
  && match i with 0 => true | S j => negb (wordAt line j) end
  && negb (wordAt line (i + List.length target)).

(** The least [i] in [from, from + n) that satisfies [f]. *)
Fixpoint firstIndex (f : nat -> bool) (from n : nat) : option nat :=
  match n with
  | 0 => None
  | S n' => if f from then Some from else firstIndex f (S from) n'
  end.

Definition SymbolNotFoundOnLine (target : jsstring) : jsstring :=
  lit "Symbol " ++ [DQUOTE] ++ target ++ [DQUOTE] ++ lit " not found".

(** Modelled from the spec: [findSymbolInLine] of
    [text_utils/findSymbolInLine.ts], which the hover tool imports and
    whose body is not among the sources.  The spec: search the line
    for the target as a symbol, prefer a whole-token match
    (word-boundary aware) over a raw substring match, and fail with
    SymbolNotFoundOnLine if the target does not occur at all. *)
Definition findSymbolInLine (lineText symbolName : jsstring)
  : Result nat jsstring :=
  match firstIndex (wholeTokenAt lineText symbolName) 0
          (S (List.length lineText)) with
  | Some characterIndex => ok characterIndex
  | None =>
      match firstIndex (occursAt lineText symbolName) 0
              (S (List.length lineText)) with
      | Some characterIndex => ok characterIndex
      | None => err (SymbolNotFoundOnLine symbolName)
      end
  end.

End Resolver.

(* ================================================================== *)
(** ** What a hover request meets *)
(* ================================================================== *)

Section HoverOutcomes.

Variable path : PathApi.
Variable ServerState : Type.
Variable parseLineNumber :
  list jsstring -> LineSpec -> Thrown (Result nat jsstring).
Variable findSymbolInLine :
  option jsstring -> jsstring -> Thrown (Result nat jsstring).
Variable findTargetInFile :
  list jsstring -> jsstring -> Thrown (Result (nat * nat) jsstring).

Definition absolutePathOf (request : GetHoverRequest) : jsstring :=
  path_resolve path (root request) (filePath request).

Definition fileUriOf (request : GetHoverRequest) : jsstring :=
  lit "file://" ++ absolutePathOf request.

(** The request resolves to the position [(lineIndex, characterIndex)]
    of the text [fileContent]: there is an active client, the file is
    read, and the resolver helpers find the line and the symbol. *)
Inductive Resolves (request : GetHoverRequest) (w : HoverWorld ServerState)
    (fileContent : jsstring) (lineIndex characterIndex : nat) : Prop :=
| resolves_in_file :
    activeClient w = ok tt ->
    files w (absolutePathOf request) = ok fileContent ->
    req_line request = None ->
    findTargetInFile (split_lines fileContent) (target request)
      = ok (ok (lineIndex, characterIndex)) ->
    Resolves request w fileContent lineIndex characterIndex
| resolves_on_line (lineSpec : LineSpec) :
    activeClient w = ok tt ->
    files w (absolutePathOf request) = ok fileContent ->
    req_line request = Some lineSpec ->
    parseLineNumber (split_lines fileContent) lineSpec = ok (ok lineIndex) ->
    findSymbolInLine (nth_error (split_lines fileContent) lineIndex)
      (target request) = ok (ok characterIndex) ->
    Resolves request w fileContent lineIndex characterIndex.

(** A helper call that threw or returned [{ error }]. *)
Definition failed {A} (t : Thrown (Result A jsstring)) : Prop :=
  match t with
  | ok (ok _) => False
  | _ => True
  end.

(** An actual failure: no active session, an unreadable file, or a
    resolver helper that fails on the text of the file. *)
Inductive Fails (request : GetHoverRequest) (w : HoverWorld ServerState)
  : Prop :=
| no_active_session error :
    activeClient w = err error -> Fails request w
| file_unreadable error :
    files w (absolutePathOf request) = err error -> Fails request w
| target_not_found fileContent :
    files w (absolutePathOf request) = ok fileContent ->
    req_line request = None ->
    failed (findTargetInFile (split_lines fileContent) (target request)) ->
    Fails request w
| line_not_found fileContent lineSpec :
    files w (absolutePathOf request) = ok fileContent ->
    req_line request = Some lineSpec ->
    failed (parseLineNumber (split_lines fileContent) lineSpec) ->
    Fails request w
| symbol_not_found fileContent lineSpec lineIndex :
    files w (absolutePathOf request) = ok fileContent ->
    req_line request = Some lineSpec ->
    parseLineNumber (split_lines fileContent) lineSpec = ok (ok lineIndex) ->
    failed (findSymbolInLine (nth_error (split_lines fileContent) lineIndex)
              (target request)) ->
    Fails request w.

Definition isGetHover (c : ServerCall) : bool :=
  match c with GetHover _ _ => true | _ => false end.

(** The number of hover queries among the calls. *)
Definition hoverQueries (cs : list ServerCall) : nat :=
  List.length (filter isGetHover cs).

End HoverOutcomes.

(* ================================================================== *)
(** ** Concrete collaborators and requests *)
(* ================================================================== *)

(** The worlds at which the properties are evaluated: a language server
    that keeps the opened documents, line and target helpers, a project
    model over lists of file names, and the requests of the examples. *)
Module Scenario.

Definition cwd : jsstring := lit "/".
Definition posix : PathApi := Posix.api cwd.

(** *** Hover *)

Definition ServerState : Type := list (jsstring * jsstring).

Definition client_openDocument (uri text : jsstring) : M ServerState unit :=
  fun s => (ok tt, (uri, text) :: s).

(** A server that answers [answer] for an opened document and rejects
    a query about any other. *)
Definition client_getHover (answer : option HoverResult)
    (uri : jsstring) (pos : Position) : M ServerState (option HoverResult) :=
  fun s =>
    if existsb (fun d => JS.eqb (fst d) uri) s
    then (ok answer, s)
    else (err (lit "document not open"), s).

Fixpoint findLine (f : jsstring -> bool) (lines : list jsstring) (i : nat)
  : option (nat * jsstring) :=
  match lines with
  | [] => None
  | l :: rest => if f l then Some (i, l) else findLine f rest (S i)
  end.

(** Modelled from the spec: [parseLineNumber] of
    [text_utils/parseLineNumber.ts], which is not among the sources.
    The spec: a number must lie in [1, lineCount] and is converted to
    a zero-based index; a string selects the first line containing
    it. *)
Definition parseLineNumber (lines : list jsstring) (spec : LineSpec)
  : Thrown (Result nat jsstring) :=
  match spec with
  | LineNumber n =>
      if ((1 <=? n)%Z && (n <=? Z.of_nat (List.length lines))%Z)%bool
      then ok (ok (Z.to_nat (n - 1)))
      else ok (err (lit "LineOutOfRange"))
  | LineText text =>
      match findLine (fun l => includes l text) lines 0 with
      | Some (i, _) => ok (ok i)
      | None => ok (err (lit "LineNotFound"))
      end
  end.

(** Modelled from the spec: [findTargetInFile] of
    [text_utils/findTargetInFile.ts], which is not among the sources.
    The spec: scan the whole file, line by line, for the first
    occurrence of the target, and return the line chosen as well. *)
Definition findTargetInFile (lines : list jsstring) (target : jsstring)
  : Thrown (Result (nat * nat) jsstring) :=
  match findLine (fun l => includes l target) lines 0 with
  | Some (i, l) =>
      match indexOf l target with
      | Some c => ok (ok (i, c))
      | None => ok (err (lit "TargetNotFoundInFile"))
      end
  | None => ok (err (lit "TargetNotFoundInFile"))
  end.

(** [findSymbolInLine] applied to [lines[targetLine]], which is
    [undefined] outside the text. *)
Definition findSymbolInLine (lineText : option jsstring) (target : jsstring)
  : Thrown (Result nat jsstring) :=
  match lineText with
  | Some l => ok (Resolver.findSymbolInLine l target)
  | None => err (lit "Cannot read properties of undefined")
  end.

(** A file of ten lines; [bar] first appears on line 5, at column 7. *)
Definition fooText : jsstring :=
  join [LF]
    [ lit "// foo"; lit "const a = 1;"; lit "const b = 2;"; [];
      lit "const bar = a + b;"; lit "const foobar = bar;";
      lit "export { bar };"; []; lit "// end"; lit "// of file" ].

Definition fooUri : jsstring := lit "file:///proj/foo.ts".

Definition hoverFiles (p : jsstring) : Thrown jsstring :=
  if JS.eqb p (lit "/proj/foo.ts") then ok fooText
  else err (lit "ENOENT: no such file or directory").

Definition hoverWorld : HoverWorld ServerState :=
  {| activeClient := ok tt; files := hoverFiles; server := []; calls := [] |}.

Definition noSessionWorld : HoverWorld ServerState :=
  {| activeClient := err (lit "No active LSP client");
     files := hoverFiles; server := []; calls := [] |}.

Definition barRequest : GetHoverRequest :=
  {| root := lit "/proj"; filePath := lit "foo.ts"; req_line := None;
     target := lit "bar" |}.

Definition barOnLine6 : GetHoverRequest :=
  {| root := lit "/proj"; filePath := lit "foo.ts";
     req_line := Some (LineNumber 6); target := lit "bar" |}.

Definition missingFileRequest : GetHoverRequest :=
  {| root := lit "/proj"; filePath := lit "gone.ts"; req_line := None;
     target := lit "bar" |}.

Definition numberHover : HoverResult :=
  {| contents := ContentsMarkup markdown (lit "const bar: number");
     range := Some {| range_start := {| line := 4; character := 6 |};
                      range_end := {| line := 4; character := 9 |} |} |}.

Definition rangelessHover : HoverResult :=
  {| contents := ContentsArray
                   [MarkedCode (lit "typescript") (lit "const bar: number");
                    MarkedPlain (lit "The sum.")];
     range := None |}.

Definition hoverTool (answer : option HoverResult) :=
  getHover posix client_openDocument (client_getHover answer)
    parseLineNumber findSymbolInLine findTargetInFile.

(** *** Move *)

(** The project model: the tracked files and the files on disk, by
    name. *)
Definition hasFile (f : jsstring) (l : list jsstring) : bool :=
  existsb (JS.eqb f) l.

Definition project_find (file : jsstring) : M (list jsstring) unit :=
  fun m => (ok tt, m).

Definition project_refresh (file : jsstring) (d : list jsstring)
  : M (list jsstring) unit :=
  fun m =>
    if hasFile file d then (ok tt, file :: m)
    else (err (lit "ENOENT"), m).

Definition project_move (project : unit) (o : MoveOptions)
  : M (list jsstring) (Result MoveFileResult jsstring) :=
  fun m =>
    if hasFile (newFilename o) m && negb (opt_overwrite o)
    then (ok (err (lit "Destination exists")), m)
    else (ok (ok {| move_message := lit "Moved";
                    changedFiles := [oldFilename o] |}),
          newFilename o
            :: filter (fun f => negb (JS.eqb f (oldFilename o))) m).

Definition project_save (project : unit) (m : list jsstring)
  : M (list jsstring) unit :=
  fun _ => (ok tt, m).

Definition moveWorld : MoveWorld (list jsstring) (list jsstring) :=
  {| memory := [lit "/p/src/b.ts"];
     disk := [lit "/p/src/a.ts"; lit "/p/src/b.ts"];
     project_calls := [] |}.

Definition ontoExisting : MoveRequest :=
  {| move_root := lit "/p"; oldPath := lit "src/a.ts";
     newPath := lit "src/b.ts"; overwrite := false |}.

Definition fromMissing : MoveRequest :=
  {| move_root := lit "/p"; oldPath := lit "src/gone.ts";
     newPath := lit "src/c.ts"; overwrite := false |}.

Definition moveTool :=
  handleMoveFile posix project_find project_refresh project_move
    project_save.

(** The report of moving [/p/a.ts] to [/p/sub/a.ts]: [/p/b.ts] imports
    the new place, [/p/e.ts] imports something else, [/p/d.ts] cannot
    be read. *)
Definition movedFrom : jsstring := lit "/p/a.ts".
Definition movedTo : jsstring := lit "/p/sub/a.ts".
Definition importer : jsstring := lit "/p/b.ts".
Definition importerLine : jsstring := lit "import {x} from './sub/a';".

(** The conversion of [/p/util.js] to [/p/util.ts]: [/p/main.ts] imports
    it as [./util.js], before and after. *)
Definition convertedFrom : jsstring := lit "/p/util.js".
Definition convertedTo : jsstring := lit "/p/util.ts".
Definition esmImporter : jsstring := lit "/p/main.ts".
Definition esmImporterLine : jsstring :=
  lit "import { helper } from './util.js';".

Definition unrelated : jsstring := lit "/p/e.ts".
Definition unrelatedLine : jsstring := lit "import z from './other';".

Definition reportFiles : FileReader :=
  fun f =>
    if JS.eqb f importer
    then ok (lit "// b" ++ [LF] ++ importerLine ++ [LF])
    else if JS.eqb f esmImporter then ok esmImporterLine
    else if JS.eqb f unrelated then ok unrelatedLine
    else err (lit "ENOENT").

Definition moveResult : MoveFileResult :=
  {| move_message := lit "Moved";
     changedFiles := [movedFrom; importer; lit "/p/d.ts"] |}.

End Scenario.

(* ================================================================== *)
(** ** The tools as the caller runs them *)
(* ================================================================== *)

(** [throw new Error(message)]. *)
Definition throw {W A} (e : jsstring) : M W A := fun w => (err e, w).

Section HoverEntryPoint.

Variable path : PathApi.
Variable ServerState : Type.
Variable client_openDocument :
  jsstring -> jsstring -> M ServerState unit.
Variable client_getHover :
  jsstring -> Position -> M ServerState (option HoverResult).
Variable parseLineNumber :
  list jsstring -> LineSpec -> Thrown (Result nat jsstring).
Variable findSymbolInLine :
  option jsstring -> jsstring -> Thrown (Result nat jsstring).
Variable findTargetInFile :
  list jsstring -> jsstring -> Thrown (Result (nat * nat) jsstring).

(** [lspGetHoverTool.execute]: the message, then the hover text after a
    blank line when there is a hover; an error result is thrown. *)
Definition lspGetHoverTool_execute (args : GetHoverRequest)
  : M (HoverWorld ServerState) jsstring :=
  fun w =>
    match getHover path client_openDocument client_getHover
            parseLineNumber findSymbolInLine findTargetInFile args w with
    | (ok value, w') =>
        let messages :=
          message value
            :: match hover value with
               | Some h => [hover_contents h]
               | None => []
               end in
        (ok (join [LF; LF] messages), w')
    | (err error, w') => throw error w'
    end.

End HoverEntryPoint.

Section MoveEntryPoint.

Variable path : PathApi.
Variables Project Memory Disk : Type.
Variable project_find : jsstring -> M Memory Project.
Variable project_refresh : jsstring -> Disk -> M Memory unit.
Variable project_move :
  Project -> MoveOptions -> M Memory (Result MoveFileResult jsstring).
Variable project_save : Project -> Memory -> M Disk unit.

(** [fs.readFile] on the files as they are on disk. *)
Variable readDisk : Disk -> FileReader.

(** [moveFileTool.execute]: an error of [handleMoveFile] or of the
    formatting is thrown; otherwise the report is returned, formatted
    from the files found on disk after the move. *)
Definition moveFileTool_execute (args : MoveRequest)
  : M (MoveWorld Memory Disk) jsstring :=
  bind
    (handleMoveFile path project_find project_refresh project_move
       project_save args)
    (fun result =>
       match result with
       | err error => throw error
       | ok value =>
           let absoluteOldPath :=
             path_join path (move_root args) (oldPath args) in
           let absoluteNewPath :=
             path_join path (move_root args) (newPath args) in
           fun w =>
             match formatMoveFileResult path (readDisk (disk w)) value
                     absoluteOldPath absoluteNewPath (move_root args) with
             | err error => throw error w
             | ok formatted => (ok formatted, w)
             end
       end).

End MoveEntryPoint.

(** A match that the report shows: the one-based number and the text
    of the line, and the import path found on it. *)
Record ReportedMatch : Type := {
  rm_lineNum : nat;
  rm_importPath : jsstring;
  rm_line : jsstring
}.

(** The number of newlines of a text. *)
Definition countLF (s : jsstring) : nat :=
  List.length (filter (N.eqb LF) s).

(** More worlds: servers that throw, a disk with contents. *)
Module Scenario2.

Import Scenario.

(** A client whose [openDocument] throws. *)
Definition brokenOpen (uri text : jsstring) : M ServerState unit :=
  fun s => (err (lit "connection closed"), s).

(** A client whose [getHover] rejects. *)
Definition rejectingHover (uri : jsstring) (pos : Position)
  : M ServerState (option HoverResult) :=
  fun s => (err (lit "request timed out"), s).

Definition barOnLine5 : GetHoverRequest :=
  {| root := lit "/proj"; filePath := lit "foo.ts";
     req_line := Some (LineNumber 5); target := lit "bar" |}.

Definition bazOnLine5 : GetHoverRequest :=
  {| root := lit "/proj"; filePath := lit "foo.ts";
     req_line := Some (LineNumber 5); target := lit "baz" |}.

Definition barOnLine99 : GetHoverRequest :=
  {| root := lit "/proj"; filePath := lit "foo.ts";
     req_line := Some (LineNumber 99); target := lit "bar" |}.

Definition bazRequest : GetHoverRequest :=
  {| root := lit "/proj"; filePath := lit "foo.ts"; req_line := None;
     target := lit "baz" |}.

(** A file that ends with a newline. *)
Definition endingText : jsstring := lit "const bar = 1;" ++ [LF].

Definition endingFiles (p : jsstring) : Thrown jsstring :=
  if JS.eqb p (lit "/proj/foo.ts") then ok endingText
  else err (lit "ENOENT: no such file or directory").

Definition endingWorld : HoverWorld ServerState :=
  {| activeClient := ok tt; files := endingFiles; server := [];
     calls := [] |}.

Definition hoverExecute (answer : option HoverResult) :=
  lspGetHoverTool_execute posix client_openDocument (client_getHover answer)
    parseLineNumber findSymbolInLine findTargetInFile.

(** A disk with contents, a project model that renames on it. *)
Definition FileSystem : Type := list (jsstring * jsstring).

Fixpoint lookupFile (f : jsstring) (d : FileSystem) : option jsstring :=
  match d with
  | [] => None
  | (name, text) :: rest =>
      if JS.eqb name f then Some text else lookupFile f rest
  end.

Definition readDisk (d : FileSystem) : FileReader :=
  fun f =>
    match lookupFile f d with
    | Some text => ok text
    | None => err (lit "ENOENT")
    end.

Definition fs_find (file : jsstring) : M FileSystem unit :=
  fun m => (ok tt, m).

Definition fs_refresh (file : jsstring) (d : FileSystem)
  : M FileSystem unit :=
  fun m =>
    match lookupFile file d with
    | Some text => (ok tt, (file, text) :: m)
    | None => (err (lit "ENOENT"), m)
    end.

(** The move renames the entry of the old file; the importers it would
    rewrite are left as they are in this model. *)
Definition fs_move (project : unit) (o : MoveOptions)
  : M FileSystem (Result MoveFileResult jsstring) :=
  fun m =>
    match lookupFile (newFilename o) m with
    | Some _ =>
        if opt_overwrite o
        then (ok (ok {| move_message := lit "Moved";
                        changedFiles := [oldFilename o] |}), m)
        else (ok (err (lit "Destination exists")), m)
    | None =>
        (ok (ok {| move_message := lit "Moved";
                   changedFiles := [oldFilename o; lit "/p/main.ts"] |}),
         map (fun e => if JS.eqb (fst e) (oldFilename o)
                       then (newFilename o, snd e) else e) m)
    end.

Definition fs_save (project : unit) (m : FileSystem) : M FileSystem unit :=
  fun _ => (ok tt, m).

(** A save that rejects after nothing was written. *)
Definition fs_save_rejects (project : unit) (m : FileSystem)
  : M FileSystem unit :=
  fun d => (err (lit "EACCES"), d).

(** A project lookup that throws. *)
Definition fs_find_throws (file : jsstring) : M FileSystem unit :=
  fun m => (err (lit "no tsconfig"), m).

(** A move primitive that throws. *)
Definition fs_move_throws (project : unit) (o : MoveOptions)
  : M FileSystem (Result MoveFileResult jsstring) :=
  fun m => (err (lit "internal error"), m).

Definition fsWorld : MoveWorld FileSystem FileSystem :=
  {| memory := [(lit "/p/main.ts", lit "import { helper } from './util.js';")];
     disk := [(lit "/p/util.js", lit "export const helper = 1;");
              (lit "/p/main.ts", lit "import { helper } from './util.js';")];
     project_calls := [] |}.

Definition convert : MoveRequest :=
  {| move_root := lit "/p"; oldPath := lit "util.js";
     newPath := lit "util.ts"; overwrite := false |}.

Definition ontoMain : MoveRequest :=
  {| move_root := lit "/p"; oldPath := lit "util.js";
     newPath := lit "main.ts"; overwrite := false |}.

(** A reader that finds a text at the old place of the moved file. *)
Definition reportFiles' : FileReader :=
  fun f =>
    if JS.eqb f movedFrom then ok (lit "import x from './sub/a';")
    else reportFiles f.

(** A reader of a file without imports. *)
Definition plainFiles : FileReader :=
  fun _ => ok (lit "export const helper = 1;" ++ [LF] ++ lit "// done").

Definition fsHandle :=
  handleMoveFile posix fs_find fs_refresh fs_move fs_save.

Definition fsExecute :=
  moveFileTool_execute posix fs_find fs_refresh fs_move fs_save readDisk.

End Scenario2.

(* ================================================================== *)
(** ** Strings: basic facts *)
(* ================================================================== *)

Lemma eqb_spec (a b : jsstring) : JS.eqb a b = true <-> a = b.
Proof.
  revert b; induction a as [|x a IH]; intros [|y b]; simpl;
    try (split; [discriminate | congruence]); try tauto.
  rewrite andb_true_iff, N.eqb_eq, IH.
  split; [intros [-> ->]; reflexivity | intros E; injection E; auto].
Qed.

Lemma eqb_refl (a : jsstring) : JS.eqb a a = true.
Proof. apply eqb_spec; reflexivity. Qed.

Lemma eqb_false (a b : jsstring) : JS.eqb a b = false <-> a <> b.
Proof.
  rewrite <- eqb_spec. destruct (JS.eqb a b); split; congruence.
Qed.

Lemma split_lines_nonempty (s : jsstring) : split_lines s <> [].
Proof.
  destruct s as [|c r]; simpl; [discriminate|].
  destruct (N.eqb c LF); [discriminate|].
  destruct (split_lines r); discriminate.
Qed.

Lemma join_singleton (sep x : jsstring) : join sep [x] = x.
Proof. reflexivity. Qed.

Lemma join_cons (sep x y : jsstring) (l : list jsstring) :
  join sep (x :: y :: l) = x ++ sep ++ join sep (y :: l).
Proof. reflexivity. Qed.

(* ================================================================== *)
(** ** Hover contents *)
(* ================================================================== *)

(** C2: a plain string, the one-element array holding it and a markup
    object with it as [value] all normalize to that string; an array of
    fragments normalizes to the fragments' values (the [value] field of
    a typed fragment) joined by newlines. *)
Theorem formatHoverContents_shapes :
  (forall s : jsstring,
     formatHoverContents (ContentsMarked (MarkedPlain s)) = s
     /\ formatHoverContents (ContentsArray [MarkedPlain s]) = s
     /\ (forall kind,
           formatHoverContents (ContentsMarkup kind s) = s))
  /\ (forall fragments : list MarkedString,
        formatHoverContents (ContentsArray fragments)
        = join [LF] (map fragmentValue fragments))
  /\ (forall language value,
        fragmentValue (MarkedCode language value) = value)
  /\ (forall s, fragmentValue (MarkedPlain s) = s)
  /\ (forall (x y : MarkedString) (rest : list MarkedString),
        formatHoverContents (ContentsArray (x :: y :: rest))
        = fragmentValue x ++ [LF]
            ++ formatHoverContents (ContentsArray (y :: rest))).
Proof.
  repeat split.
Qed.

(* ================================================================== *)
(** ** The hover tool: results *)
(* ================================================================== *)

Section HoverProperties.

Variable path : PathApi.
Variable ServerState : Type.
Variable client_openDocument :
  jsstring -> jsstring -> M ServerState unit.
Variable client_getHover :
  jsstring -> Position -> M ServerState (option HoverResult).
Variable parseLineNumber :
  list jsstring -> LineSpec -> Thrown (Result nat jsstring).
Variable findSymbolInLine :
  option jsstring -> jsstring -> Thrown (Result nat jsstring).
Variable findTargetInFile :
  list jsstring -> jsstring -> Thrown (Result (nat * nat) jsstring).

Local Abbreviation World := (HoverWorld ServerState).
Local Abbreviation resolves :=
  (Resolves path parseLineNumber findSymbolInLine findTargetInFile).
Local Abbreviation fails :=
  (Fails path parseLineNumber findSymbolInLine findTargetInFile).
Local Abbreviation run_getHover :=
  (getHover path client_openDocument client_getHover
     parseLineNumber findSymbolInLine findTargetInFile).
Local Abbreviation run_queryServer :=
  (queryServer path client_openDocument client_getHover).

Lemma lastLineLength_last (lines : list jsstring) :
  lastLineLength lines = List.length (last lines []).
Proof.
  unfold lastLineLength.
  destruct lines as [|l ls]; [reflexivity|].
  replace (List.length (l :: ls) - 1) with (List.length ls) by (simpl; lia).
  revert l; induction ls as [|x ls IH]; intros l; [reflexivity|].
  simpl nth_error. rewrite IH. reflexivity.
Qed.

(** Both entry points reach the server steps exactly when the request
    resolves. *)
Lemma getHover_resolved request (w : World) content l c :
  resolves request w content l c ->
  run_getHover request w
  = try_catch (run_queryServer request (fileUriOf path request) content l c) w.
Proof.
  intros [Hc Hf Hl Ht | ls Hc Hf Hl Hp Hs];
    unfold getHover, getHoverWithoutLine; rewrite Hl;
    unfold try_catch, bind, getActiveClient, readFileSync, lift;
    fold (absolutePathOf path request); rewrite Hc, Hf.
  - rewrite Ht. reflexivity.
  - rewrite Hp, Hs. reflexivity.
Qed.

Lemma getHover_failed request (w : World) :
  fails request w -> exists e, fst (run_getHover request w) = err e.
Proof.
  intros HF.
  assert (G : forall body : M World (Result GetHoverSuccess jsstring),
             (exists e, fst (body w) = err e \/ fst (body w) = ok (err e)) ->
             exists e, fst (try_catch body w) = err e).
  { intros body [e He]. unfold try_catch.
    destruct (body w) as [[[v|e']|e'] w']; simpl in *; eauto;
      destruct He; discriminate. }
  unfold getHover, getHoverWithoutLine.
  destruct HF as [e He | e He | content Hf Hl Hr | content ls Hf Hl Hr
                 | content ls l Hf Hl Hp Hr].
  - destruct (req_line request); apply G;
      unfold bind, getActiveClient; rewrite He; simpl; eauto.
  - destruct (req_line request); apply G;
      unfold bind, getActiveClient, readFileSync;
      fold (absolutePathOf path request); rewrite He;
      destruct (activeClient w) as [[]|e0]; simpl; eauto.
  - rewrite Hl. apply G.
    unfold bind, getActiveClient, readFileSync, lift;
      fold (absolutePathOf path request); rewrite Hf.
    destruct (activeClient w) as [[]|e0]; simpl; eauto.
    destruct (findTargetInFile _ _) as [[?|e1]|e1]; simpl in *;
      [contradiction | eauto | eauto].
  - rewrite Hl. apply G.
    unfold bind, getActiveClient, readFileSync, lift;
      fold (absolutePathOf path request); rewrite Hf.
    destruct (activeClient w) as [[]|e0]; simpl; eauto.
    destruct (parseLineNumber _ _) as [[?|e1]|e1]; simpl in *;
      [contradiction | eauto | eauto].
  - rewrite Hl. apply G.
    unfold bind, getActiveClient, readFileSync, lift;
      fold (absolutePathOf path request); rewrite Hf.
    destruct (activeClient w) as [[]|e0]; simpl; eauto.
    rewrite Hp.
    destruct (findSymbolInLine _ _) as [[?|e1]|e1]; simpl in *;
      [contradiction | eauto | eauto].
Qed.

Lemma try_catch_world {T} (body : M World (Result T jsstring)) (w : World) :
  snd (try_catch body w) = snd (body w).
Proof.
  unfold try_catch. destruct (body w) as [[r|e] w']; reflexivity.
Qed.

(** Either nothing was asked of the server and the world is as it
    was, or the request resolved. *)
Lemma getHover_cases request (w : World) :
  snd (run_getHover request w) = w
  \/ exists content l c, resolves request w content l c.
Proof.
  unfold getHover, getHoverWithoutLine.
  destruct (req_line request) as [ls|] eqn:Hl; rewrite try_catch_world;
    unfold bind, getActiveClient, readFileSync, lift;
    fold (absolutePathOf path request);
    destruct (activeClient w) as [[]|e0] eqn:Hc; auto;
    destruct (files w (absolutePathOf path request)) as [content|e1] eqn:Hf;
    auto.
  - destruct (parseLineNumber (split_lines content) ls)
      as [[l|e2]|e2] eqn:Hp; auto.
    destruct (findSymbolInLine (nth_error (split_lines content) l)
                (target request)) as [[c|e3]|e3] eqn:Hs; auto.
    right. exists content, l, c.
    eapply resolves_on_line; eauto.
  - destruct (findTargetInFile (split_lines content) (target request))
      as [[[l c]|e2]|e2] eqn:Ht; auto.
    right. exists content, l, c.
    eapply resolves_in_file; eauto.
Qed.

(** A request that fails leaves the world as it was: nothing was asked
    of the server. *)
Lemma getHover_failed_world request (w : World) :
  fails request w -> snd (run_getHover request w) = w.
Proof.
  intros HF. unfold getHover, getHoverWithoutLine.
  destruct HF as [e He | e He | content Hf Hl Hr | content ls Hf Hl Hr
                 | content ls l Hf Hl Hp Hr].
  - destruct (req_line request); rewrite try_catch_world;
      unfold bind, getActiveClient; rewrite He; reflexivity.
  - destruct (req_line request); rewrite try_catch_world;
      unfold bind, getActiveClient, readFileSync;
      fold (absolutePathOf path request); rewrite He;
      destruct (activeClient w) as [[]|e0]; reflexivity.
  - rewrite Hl, try_catch_world.
    unfold bind, getActiveClient, readFileSync, lift;
      fold (absolutePathOf path request); rewrite Hf.
    destruct (activeClient w) as [[]|e0]; [|reflexivity].
    destruct (findTargetInFile _ _) as [[?|e1]|e1]; simpl in *;
      [contradiction | reflexivity | reflexivity].
  - rewrite Hl, try_catch_world.
    unfold bind, getActiveClient, readFileSync, lift;
      fold (absolutePathOf path request); rewrite Hf.
    destruct (activeClient w) as [[]|e0]; [|reflexivity].
    destruct (parseLineNumber _ _) as [[?|e1]|e1]; simpl in *;
      [contradiction | reflexivity | reflexivity].
  - rewrite Hl, try_catch_world.
    unfold bind, getActiveClient, readFileSync, lift;
      fold (absolutePathOf path request); rewrite Hf.
    destruct (activeClient w) as [[]|e0]; [|reflexivity].
    rewrite Hp.
    destruct (findSymbolInLine _ _) as [[?|e1]|e1]; simpl in *;
      [contradiction | reflexivity | reflexivity].
Qed.

Lemma formatHoverResult_world result request l c (w : World) :
  snd (formatHoverResult path result request l c w) = w.
Proof.
  unfold formatHoverResult.
  destruct result as [result|]; [|reflexivity].
  unfold bind, ret, readFileSync.
  destruct (range result); [reflexivity|].
  destruct (files w _); reflexivity.
Qed.

(** The calls of the server steps: the document is opened; if that
    does not throw, the delay is awaited and one hover query follows,
    on the server state that [openDocument] left. *)
Lemma queryServer_calls request uri content l c (w : World) :
  match client_openDocument uri content (server w) with
  | (err _, _) =>
      calls (snd (run_queryServer request uri content l c w))
      = calls w ++ [OpenDocument uri content]
  | (ok _, s1) =>
      calls (snd (run_queryServer request uri content l c w))
      = calls w ++ [OpenDocument uri content; Delay 1000;
                    GetHover uri {| line := l; character := c |}]
      /\ forall answer s2,
           client_getHover uri {| line := l; character := c |} s1
           = (ok answer, s2) ->
           fst (run_queryServer request uri content l c w)
           = fst (formatHoverResult path answer request l c w)
  end.
Proof.
  unfold queryServer, bind, openDocument, delay, getHover_call, on_server.
  simpl.
  destruct (client_openDocument uri content (server w)) as [[[]|e] s1];
    simpl; [|reflexivity].
  destruct (client_getHover uri _ s1) as [[answer|e] s2]; simpl.
  - rewrite formatHoverResult_world. simpl.
    rewrite <- !app_assoc. simpl. split; [reflexivity|].
    intros answer' s2' E. injection E as <- <-.
    unfold formatHoverResult, bind, ret, readFileSync.
    destruct answer as [result|]; [|reflexivity].
    destruct (range result); simpl; [reflexivity|].
    destruct (files w _); reflexivity.
  - rewrite <- !app_assoc. simpl. split; [reflexivity|].
    intros answer' s2' E. discriminate.
Qed.

(** C3: when the request resolves to a position and the server answers
    null, the result is a success with [hover = null] and the message
    [No hover information available for "<target>" at
    <filePath>:<lineIndex+1>:<characterIndex+1>]; a missing session,
    an unreadable file and a resolver failure are errors. *)
Theorem getHover_null_is_success_failure_is_error
    (request : GetHoverRequest) (w : World) :
  (forall l c,
      formatHoverResult path None request l c w
      = (ok (ok {| message :=
                     lit "No hover information available for "
                       ++ [DQUOTE] ++ target request ++ [DQUOTE]
                       ++ lit " at " ++ filePath request
                       ++ lit ":" ++ String_of_nat (l + 1)
                       ++ lit ":" ++ String_of_nat (c + 1);
                   hover := None |}), w))
  /\ (forall content l c s1 s2,
        resolves request w content l c ->
        client_openDocument (fileUriOf path request) content (server w)
        = (ok tt, s1) ->
        client_getHover (fileUriOf path request)
          {| line := l; character := c |} s1 = (ok None, s2) ->
        fst (run_getHover request w)
        = ok {| message :=
                  lit "No hover information available for "
                    ++ [DQUOTE] ++ target request ++ [DQUOTE]
                    ++ lit " at " ++ filePath request
                    ++ lit ":" ++ String_of_nat (l + 1)
                    ++ lit ":" ++ String_of_nat (c + 1);
                hover := None |})
  /\ (fails request w -> exists e, fst (run_getHover request w) = err e).
Proof.
  split; [reflexivity|]. split; [|apply getHover_failed].
  intros content l c s1 s2 HR Ho Hh.
  rewrite (getHover_resolved HR).
  pose proof (queryServer_calls request (fileUriOf path request)
                content l c w) as Q.
  rewrite Ho in Q. destruct Q as [_ Q]. specialize (Q _ _ Hh).
  unfold try_catch.
  destruct (run_queryServer request (fileUriOf path request) content l c w)
    as [[r|e] w'] eqn:E; simpl in Q |- *;
    [injection Q as ->; reflexivity | discriminate].
Qed.

(** C4: for a non-null hover result, a range supplied by the server
    is reported with 1 added to each of its four coordinates; without
    one, the reported range starts at line 1, character 1 and ends at
    the number of lines of the file's text (split on newline) and the
    length of the last line. *)
Theorem formatHoverResult_range
    (result : HoverResult) (request : GetHoverRequest) (l c : nat)
    (w : World) :
  (forall r, range result = Some r ->
     formatHoverResult path (Some result) request l c w
     = (ok (ok {| message :=
                    lit "Hover information" ++ locationText request l c;
                  hover := Some
                    {| hover_contents := formatHoverContents (contents result);
                       hover_range := Some
                         {| range_start :=
                              {| line := line (range_start r) + 1;
                                 character := character (range_start r) + 1 |};
                            range_end :=
                              {| line := line (range_end r) + 1;
                                 character := character (range_end r) + 1 |}
                         |} |} |}), w))
  /\ (forall text,
        range result = None ->
        files w (absolutePathOf path request) = ok text ->
        formatHoverResult path (Some result) request l c w
        = (ok (ok {| message :=
                       lit "Hover information" ++ locationText request l c;
                     hover := Some
                       {| hover_contents := formatHoverContents (contents result);
                          hover_range := Some
                            {| range_start := {| line := 1; character := 1 |};
                               range_end :=
                                 {| line := List.length (split_lines text);
                                    character :=
                                      List.length (last (split_lines text) [])
                                 |} |} |} |}), w)).
Proof.
  split.
  - intros r Hr. unfold formatHoverResult, bind, ret. rewrite Hr.
    reflexivity.
  - intros text Hr Hf.
    unfold formatHoverResult, bind, ret, readFileSync. rewrite Hr.
    fold (absolutePathOf path request). rewrite Hf.
    rewrite lastLineLength_last. reflexivity.
Qed.

Lemma getHover_resolved_calls request (w : World) content l c :
  resolves request w content l c ->
  match client_openDocument (fileUriOf path request) content (server w) with
  | (err _, _) =>
      calls (snd (run_getHover request w))
      = calls w ++ [OpenDocument (fileUriOf path request) content]
  | (ok _, _) =>
      calls (snd (run_getHover request w))
      = calls w ++ [OpenDocument (fileUriOf path request) content;
                    Delay 1000;
                    GetHover (fileUriOf path request)
                      {| line := l; character := c |}]
  end.
Proof.
  intros HR. rewrite (getHover_resolved HR), try_catch_world.
  pose proof (queryServer_calls request (fileUriOf path request)
                content l c w) as Q.
  destruct (client_openDocument _ _ _) as [[[]|e] s1]; tauto.
Qed.

(** C8, as the code has it: a hover invocation asks the server
    nothing, or opens the document and stops because that threw, or
    opens the document, awaits the 1000 ms delay and issues one hover
    query, in this order; so there is at most one hover query, none
    before the document is opened and the delay awaited, and no
    [openDocument] after it.  The full sequence is issued whenever the
    request resolves and [openDocument] returns; nothing is issued when
    the request fails. *)
Theorem getHover_call_order (request : GetHoverRequest) (w : World) :
  exists issued : list ServerCall,
    calls (snd (run_getHover request w)) = calls w ++ issued
    /\ (issued = []
        \/ (exists uri text, issued = [OpenDocument uri text])
        \/ (exists uri text pos,
              issued = [OpenDocument uri text; Delay 1000; GetHover uri pos]))
    /\ hoverQueries issued <= 1
    /\ (forall content l c s1,
          resolves request w content l c ->
          client_openDocument (fileUriOf path request) content (server w)
          = (ok tt, s1) ->
          issued = [OpenDocument (fileUriOf path request) content;
                    Delay 1000;
                    GetHover (fileUriOf path request)
                      {| line := l; character := c |}])
    /\ (fails request w -> issued = []).
Proof.
  assert (H : exists issued : list ServerCall,
             calls (snd (run_getHover request w)) = calls w ++ issued
             /\ (issued = []
                 \/ (exists uri text, issued = [OpenDocument uri text])
                 \/ (exists uri text pos,
                       issued = [OpenDocument uri text; Delay 1000;
                                 GetHover uri pos]))).
  { destruct (getHover_cases request w) as [Hw | (content & l & c & HR)].
    - exists []. rewrite Hw, app_nil_r. auto.
    - pose proof (getHover_resolved_calls HR) as Q.
      destruct (client_openDocument _ _ _) as [[[]|e] s1];
        eexists; (split; [exact Q|]); eauto 6. }
  destruct H as (issued & Hcalls & Hshape).
  exists issued. repeat split; auto.
  - destruct Hshape as [-> | [(uri & text & ->) | (uri & text & pos & ->)]];
      unfold hoverQueries; simpl; lia.
  - intros content l c s1 HR Ho.
    pose proof (getHover_resolved_calls HR) as Q.
    rewrite Ho, Hcalls in Q.
    exact (app_inv_head _ _ _ Q).
  - intros HF. apply getHover_failed_world in HF.
    rewrite HF in Hcalls. rewrite <- (app_nil_r (calls w)) in Hcalls at 1.
    symmetry. exact (app_inv_head _ _ _ Hcalls).
Qed.

End HoverProperties.

(* ================================================================== *)
(** ** The import pattern: progress and termination of the loop *)
(* ================================================================== *)

Section RegexFacts.

Lemma stripPrefix_length (p s r : jsstring) :
  stripPrefix p s = Some r -> List.length s = List.length p + List.length r.
Proof.
  revert s; induction p as [|x p IH]; intros [|y s] H; simpl in *;
    try discriminate; try (injection H as <-; reflexivity).
  destruct (N.eqb x y); [|discriminate].
  rewrite (IH _ H). reflexivity.
Qed.

Lemma keyword_length (s r : jsstring) :
  keyword s = Some r -> List.length r + 4 <= List.length s.
Proof.
  unfold keyword. intros H.
  destruct (stripPrefix (lit "import") s) eqn:E1.
  - injection H as <-. apply stripPrefix_length in E1. simpl in E1. lia.
  - destruct (stripPrefix (lit "from") s) eqn:E2.
    + injection H as <-. apply stripPrefix_length in E2. simpl in E2. lia.
    + apply stripPrefix_length in H. simpl in H. lia.
Qed.

Lemma dropWhile_length (f : char -> bool) (s : jsstring) :
  List.length (dropWhile f s) <= List.length s.
Proof.
  induction s as [|c s IH]; simpl; [lia|].
  destruct (f c); simpl; lia.
Qed.

Lemma optional_length (c : char) (s : jsstring) :
  List.length (optional c s) <= List.length s.
Proof.
  destruct s as [|x s]; simpl; [lia|].
  destruct (N.eqb x c); simpl; lia.
Qed.

Lemma stripPrefix_some (p s r : jsstring) :
  stripPrefix p s = Some r -> s = p ++ r.
Proof.
  revert s; induction p as [|x p IH]; intros [|y s] H; simpl in *;
    try discriminate; try (injection H as <-; reflexivity).
  destruct (N.eqb_spec x y) as [->|]; [|discriminate].
  rewrite (IH _ H). reflexivity.
Qed.

Lemma stripPrefix_app (p r : jsstring) : stripPrefix p (p ++ r) = Some r.
Proof.
  induction p as [|x p IH]; simpl; [destruct r; reflexivity|].
  rewrite N.eqb_refl. exact IH.
Qed.

Lemma keyword_some (s r : jsstring) :
  keyword s = Some r ->
  exists kw, In kw [lit "import"; lit "from"; lit "require"] /\ s = kw ++ r.
Proof.
  unfold keyword. intros H.
  destruct (stripPrefix (lit "import") s) eqn:E1.
  - injection H as <-. apply stripPrefix_some in E1.
    exists (lit "import"). simpl; auto.
  - destruct (stripPrefix (lit "from") s) eqn:E2.
    + injection H as <-. apply stripPrefix_some in E2.
      exists (lit "from"). simpl; auto.
    + apply stripPrefix_some in H. exists (lit "require"). simpl; auto.
Qed.

Lemma keyword_app (kw r : jsstring) :
  In kw [lit "import"; lit "from"; lit "require"] ->
  keyword (kw ++ r) = Some r.
Proof.
  intros [<-|[<-|[<-|[]]]]; reflexivity.
Qed.

Lemma takeWhile_dropWhile (f : char -> bool) (s : jsstring) :
  s = takeWhile f s ++ dropWhile f s
  /\ forallb f (takeWhile f s) = true
  /\ match dropWhile f s with c :: _ => f c = false | [] => True end.
Proof.
  induction s as [|c s (IH1 & IH2 & IH3)]; simpl; [auto|].
  destruct (f c) eqn:E; simpl.
  - rewrite E, <- IH1. auto.
  - auto.
Qed.

(** A run of characters that satisfy [f], followed by one that does
    not, is what [takeWhile] takes and [dropWhile] leaves. *)
Lemma span_run (f : char -> bool) (run : jsstring) (c : char)
    (rest : jsstring) :
  forallb f run = true -> f c = false ->
  takeWhile f (run ++ c :: rest) = run
  /\ dropWhile f (run ++ c :: rest) = c :: rest.
Proof.
  intros Hrun Hc. induction run as [|x run IH]; simpl in *.
  - rewrite Hc. auto.
  - apply andb_true_iff in Hrun. destruct Hrun as [Hx Hrun].
    rewrite Hx. destruct (IH Hrun) as [-> ->]. auto.
Qed.

Lemma isQuote_cases (q : char) :
  isQuote q = true -> q = APOSTROPHE \/ q = DQUOTE \/ q = BACKTICK.
Proof.
  unfold isQuote. rewrite !orb_true_iff, !N.eqb_eq. tauto.
Qed.

(** The matcher finds only what the pattern says. *)
Lemma matchHere_sound (s importPath : jsstring) (len : nat) :
  matchHere s = Some (importPath, len) -> PatternMatch s importPath len.
Proof.
  unfold matchHere. intros H.
  destruct (keyword s) as [s1|] eqn:K; [|discriminate].
  apply keyword_some in K. destruct K as (kw & Hkw & ->).
  destruct (takeWhile_dropWhile isWhiteSpace s1) as (Ews & Hws & _).
  set (ws := takeWhile isWhiteSpace s1) in *.
  set (s2 := dropWhile isWhiteSpace s1) in *.
  assert (L : exists lp, (lp = [] \/ lp = [LPAREN])
                         /\ s2 = lp ++ optional LPAREN s2).
  { destruct s2 as [|x r]; simpl; [exists []; auto|].
    destruct (N.eqb_spec x LPAREN) as [->|]; [exists [LPAREN]|exists []];
      auto. }
  destruct L as (lp & Hlp & Elp).
  destruct (optional LPAREN s2) as [|q1 s4]; [discriminate|].
  destruct (isQuote q1) eqn:Q1; [|discriminate].
  destruct (takeWhile_dropWhile notQuote s4) as (Ep & Hp & Hq2).
  destruct (takeWhile notQuote s4) as [|c p] eqn:Ec; [discriminate|].
  destruct (dropWhile notQuote s4) as [|q2 s6]; [discriminate|].
  assert (R : exists rp, (rp = [] \/ rp = [RPAREN])
                         /\ s6 = rp ++ optional RPAREN s6).
  { destruct s6 as [|x r]; simpl; [exists []; auto|].
    destruct (N.eqb_spec x RPAREN) as [->|]; [exists [RPAREN]|exists []];
      auto. }
  destruct R as (rp & Hrp & Erp).
  injection H as <- <-.
  assert (E : kw ++ s1
              = (kw ++ ws ++ lp ++ [q1] ++ (c :: p) ++ [q2] ++ rp)
                  ++ optional RPAREN s6).
  { rewrite Ews, Elp, Ep. rewrite Erp at 1.
    repeat (rewrite <- app_assoc; simpl). reflexivity. }
  apply (@pattern_match _ _ _ kw ws lp rp (optional RPAREN s6) q1 q2);
    auto; try discriminate.
  - unfold notQuote in Hq2. apply negb_false_iff in Hq2. exact Hq2.
  - rewrite E. repeat (rewrite <- app_assoc; simpl). reflexivity.
  - rewrite E, length_app. lia.
Qed.

(** Whatever the pattern can match at the head of the text, the
    matcher finds there, with the same import path; the match found is
    the longer one when a closing parenthesis could be taken or left. *)
Lemma matchHere_complete (s importPath : jsstring) (len : nat) :
  PatternMatch s importPath len ->
  exists len',
    matchHere s = Some (importPath, len') /\ len <= len' <= len + 1.
Proof.
  intros [kw ws lp rp rest q1 q2 Hkw Hws Hlp Q1 Hne Hp Q2 Hrp -> ->].
  unfold matchHere. rewrite (keyword_app _ Hkw).
  assert (W1 : isWhiteSpace q1 = false)
    by (destruct (isQuote_cases _ Q1) as [->|[->| ->]]; reflexivity).
  assert (P1 : N.eqb q1 LPAREN = false)
    by (destruct (isQuote_cases _ Q1) as [->|[->| ->]]; reflexivity).
  assert (N2 : notQuote q2 = false) by (unfold notQuote; rewrite Q2; auto).
  assert (D : dropWhile isWhiteSpace
                (ws ++ lp ++ [q1] ++ importPath ++ [q2] ++ rp ++ rest)
              = lp ++ [q1] ++ importPath ++ [q2] ++ rp ++ rest).
  { destruct Hlp as [-> | ->]; simpl.
    - apply (span_run isWhiteSpace ws q1 _ Hws W1).
    - apply (span_run isWhiteSpace ws LPAREN _ Hws eq_refl). }
  rewrite D.
  assert (O : optional LPAREN
                (lp ++ [q1] ++ importPath ++ [q2] ++ rp ++ rest)
              = q1 :: importPath ++ [q2] ++ rp ++ rest).
  { destruct Hlp as [-> | ->]; simpl; [rewrite P1|]; reflexivity. }
  rewrite O, Q1.
  destruct (span_run notQuote importPath q2 (rp ++ rest) Hp N2) as [T Dq].
  simpl app in *. rewrite T, Dq.
  destruct importPath as [|c p]; [contradiction|].
  eexists. split; [reflexivity|].
  rewrite !length_app. simpl. rewrite !length_app. simpl.
  rewrite !length_app.
  pose proof (optional_length RPAREN (rp ++ rest)) as Ho.
  rewrite length_app in Ho.
  assert (Hr : List.length rest <= List.length (optional RPAREN (rp ++ rest))
               + 1).
  { destruct Hrp as [-> | ->]; simpl.
    - destruct rest as [|x r]; simpl; [lia|].
      destruct (N.eqb x RPAREN); simpl; lia.
    - lia. }
  assert (Hr2 : List.length (optional RPAREN (rp ++ rest))
                <= List.length rest).
  { destruct Hrp as [-> | ->]; simpl.
    - apply optional_length.
    - lia. }
  destruct Hlp as [-> | ->]; destruct Hrp as [-> | ->]; simpl in *; lia.
Qed.

(** A match is not empty and lies inside the text. *)
Lemma matchHere_bounds (s importPath : jsstring) (len : nat) :
  matchHere s = Some (importPath, len) -> 1 <= len <= List.length s.
Proof.
  unfold matchHere. intros H.
  destruct (keyword s) as [s1|] eqn:K; [|discriminate].
  apply keyword_length in K.
  pose proof (dropWhile_length isWhiteSpace s1) as D1.
  pose proof (optional_length LPAREN (dropWhile isWhiteSpace s1)) as O1.
  destruct (optional LPAREN (dropWhile isWhiteSpace s1)) as [|q s4];
    [discriminate|].
  destruct (isQuote q); [|discriminate].
  pose proof (dropWhile_length notQuote s4) as D2.
  destruct (takeWhile notQuote s4); [discriminate|].
  destruct (dropWhile notQuote s4) as [|q' s6]; [discriminate|].
  pose proof (optional_length RPAREN s6) as O2.
  injection H as _ <-. simpl in *. lia.
Qed.

Lemma search_bounds (s importPath : jsstring) (pos e : nat) :
  search s pos = Some (importPath, e) -> pos < e <= pos + List.length s.
Proof.
  revert pos; induction s as [|c s IH]; intros pos.
  - cbn. discriminate.
  - cbn [search]. destruct (matchHere (c :: s)) as [[p len]|] eqn:Hm.
    + intros H; injection H as _ <-.
      apply matchHere_bounds in Hm. lia.
    + intros H. apply IH in H. cbn [List.length]. lia.
Qed.

(** [exec] moves [lastIndex] forward on a match, and not past the end
    of the line; on a failure it resets it to 0. *)
Lemma exec_some (line importPath : jsstring) (lastIndex e : nat) :
  exec line lastIndex = (Some importPath, e) ->
  lastIndex < e <= List.length line.
Proof.
  unfold exec.
  destruct (Nat.ltb_spec (List.length line) lastIndex) as [Hlt|Hle];
    [discriminate|].
  destruct (search (skipn lastIndex line) lastIndex) as [[p e']|] eqn:Hs;
    [|discriminate].
  intros H; injection H as _ <-.
  apply search_bounds in Hs. rewrite length_skipn in Hs. lia.
Qed.

Lemma exec_none (line : jsstring) (lastIndex e : nat) :
  exec line lastIndex = (None, e) -> e = 0.
Proof.
  unfold exec.
  destruct (List.length line <? lastIndex); [congruence|].
  destruct (search _ _) as [[p e']|]; congruence.
Qed.

Variable perMatch : jsstring -> list jsstring.

(** With fuel beyond the characters left, the loop ends by a failed
    [exec]: [lastIndex] is 0 again for the next line. *)
Lemma execLoop_resets (fuel : nat) (line : jsstring) (lastIndex : nat)
    (matches : list jsstring) :
  0 < fuel ->
  List.length line < lastIndex + fuel ->
  snd (execLoop fuel perMatch line lastIndex matches) = 0.
Proof.
  revert lastIndex matches;
    induction fuel as [|fuel IH]; intros lastIndex matches H0 Hf; [lia|].
  simpl.
  destruct (exec line lastIndex) as [[importPath|] e] eqn:E.
  - apply exec_some in E. apply IH; lia.
  - apply exec_none in E. subst e. reflexivity.
Qed.

(** More fuel than that changes nothing: the loop as modelled is the
    loop of the source, which runs until [exec] fails. *)
Lemma execLoop_fuel (fuel extra : nat) (line : jsstring) (lastIndex : nat)
    (matches : list jsstring) :
  0 < fuel ->
  List.length line < lastIndex + fuel ->
  execLoop (fuel + extra) perMatch line lastIndex matches
  = execLoop fuel perMatch line lastIndex matches.
Proof.
  revert lastIndex matches;
    induction fuel as [|fuel IH]; intros lastIndex matches H0 Hf; [lia|].
  simpl.
  destruct (exec line lastIndex) as [[importPath|] e] eqn:E; [|reflexivity].
  apply exec_some in E. apply IH; lia.
Qed.

(** What the loop pushes does not depend on what was pushed before. *)
Lemma execLoop_acc (fuel : nat) (line : jsstring) (lastIndex : nat)
    (matches : list jsstring) :
  execLoop fuel perMatch line lastIndex matches
  = (matches ++ fst (execLoop fuel perMatch line lastIndex []),
     snd (execLoop fuel perMatch line lastIndex [])).
Proof.
  revert lastIndex matches;
    induction fuel as [|fuel IH]; intros lastIndex matches; simpl.
  - rewrite app_nil_r. reflexivity.
  - destruct (exec line lastIndex) as [[importPath|] e] eqn:E; simpl.
    + rewrite IH. rewrite (IH e (perMatch importPath)). simpl.
      rewrite <- app_assoc. reflexivity.
    + rewrite app_nil_r. reflexivity.
Qed.

End RegexFacts.

(** The loop pushes [perMatch] of each import path it visits. *)
Lemma execLoop_matches (perMatch : jsstring -> list jsstring) (fuel : nat)
    (line : jsstring) (lastIndex : nat) :
  execLoop fuel perMatch line lastIndex []
  = (flat_map perMatch
       (fst (execLoop fuel (fun p => [p]) line lastIndex [])),
     snd (execLoop fuel (fun p => [p]) line lastIndex [])).
Proof.
  revert lastIndex; induction fuel as [|fuel IH]; intros lastIndex; simpl;
    [reflexivity|].
  destruct (exec line lastIndex) as [[importPath|] e] eqn:E; simpl;
    [|reflexivity].
  rewrite execLoop_acc, IH.
  rewrite (execLoop_acc (fun p => [p]) fuel line e [importPath]). simpl.
  reflexivity.
Qed.

(** On a line that starts with [lastIndex = 0] the loop pushes the
    fragments of the line's import paths and leaves [lastIndex = 0]. *)
Lemma execLoop_line (perMatch : jsstring -> list jsstring) (line : jsstring) :
  execLoop (loopFuel line) perMatch line 0 []
  = (flat_map perMatch (importPaths line), 0).
Proof.
  rewrite execLoop_matches. unfold importPaths. f_equal.
  apply execLoop_resets; unfold loopFuel; lia.
Qed.

(* ================================================================== *)
(** ** The move-file tool: the change report *)
(* ================================================================== *)

Section MoveReportProperties.

Variable path : PathApi.
Variable readFile : FileReader.
Variables file oldPath newPath : jsstring.

Local Abbreviation fragmentsOf :=
  (fun (lineNum : nat) (line : jsstring) =>
     flat_map (matchFragment path file oldPath newPath line lineNum)
       (importPaths line)).
Local Abbreviation scan := (scanLines path file oldPath newPath).

Lemma scanLines_cons (line : jsstring) (rest : list jsstring) (i : nat) :
  scan (line :: rest) i 0
  = (fragmentsOf (i + 1) line ++ fst (scan rest (S i) 0),
     snd (scan rest (S i) 0)).
Proof.
  cbn [scanLines]. rewrite execLoop_line.
  destruct (scan rest (S i) 0); reflexivity.
Qed.

Lemma scanLines_lastIndex (lines : list jsstring) (i : nat) :
  snd (scan lines i 0) = 0.
Proof.
  revert i; induction lines as [|line rest IH]; intros i; [reflexivity|].
  rewrite scanLines_cons. apply IH.
Qed.

(** A match pushes the three lines of a fragment, or nothing. *)
Lemma matchFragment_cases (line : jsstring) (lineNum : nat)
    (importPath : jsstring) :
  let oldLine := reconstructOldLine path file oldPath line importPath in
  (refersToMovedFile path file newPath importPath = true
   /\ oldLine <> line
   /\ matchFragment path file oldPath newPath line lineNum importPath
      = diffFragment lineNum oldLine line)
  \/ ((refersToMovedFile path file newPath importPath = false
       \/ oldLine = line)
      /\ matchFragment path file oldPath newPath line lineNum importPath
         = []).
Proof.
  unfold matchFragment. cbv zeta.
  destruct (refersToMovedFile path file newPath importPath); [|auto].
  destruct (JS.eqb _ line) eqn:E; simpl.
  - apply eqb_spec in E. auto.
  - apply eqb_false in E. auto.
Qed.

Lemma matchFragment_indented (line : jsstring) (lineNum : nat)
    (importPath : jsstring) :
  Forall indented
    (matchFragment path file oldPath newPath line lineNum importPath).
Proof.
  destruct (matchFragment_cases line lineNum importPath)
    as [(_ & _ & ->) | (_ & ->)]; [|constructor].
  unfold diffFragment.
  repeat (apply Forall_cons; [reflexivity|]). constructor.
Qed.

Lemma fragmentsOf_indented (lineNum : nat) (line : jsstring) :
  Forall indented (fragmentsOf lineNum line).
Proof.
  cbv beta. generalize (importPaths line).
  intros ps; induction ps as [|p ps IH]; simpl; [constructor|].
  apply Forall_app. split; [apply matchFragment_indented | exact IH].
Qed.

Lemma scanLines_indented (lines : list jsstring) (i : nat) :
  Forall indented (fst (scan lines i 0)).
Proof.
  revert i; induction lines as [|line rest IH]; intros i; [constructor|].
  rewrite scanLines_cons. simpl. apply Forall_app.
  split; [apply fragmentsOf_indented | apply IH].
Qed.


(** Without a fragment from any match, the flattened list is empty. *)
Lemma scanLines_empty (lines : list jsstring) (i : nat) :
  (forall line importPath lineNum,
      In line lines -> In importPath (importPaths line) ->
      matchFragment path file oldPath newPath line lineNum importPath = []) ->
  fst (scan lines i 0) = [].
Proof.
  revert i; induction lines as [|l rest IH]; intros i H; [reflexivity|].
  rewrite scanLines_cons. simpl fst.
  rewrite IH by (intros; apply H; simpl; auto).
  rewrite app_nil_r.
  assert (G : forall ps, (forall p, In p ps -> In p (importPaths l)) ->
              flat_map (matchFragment path file oldPath newPath l (i + 1)) ps
              = []).
  { induction ps as [|p ps IHps]; intros Hs; [reflexivity|]. simpl.
    rewrite (H l p (i + 1));
      [| left; reflexivity | apply Hs; left; reflexivity].
    apply IHps. intros q Hq; apply Hs; right; exact Hq. }
  apply G; auto.
Qed.

Lemma analyzeImportChanges_ok :
  exists fragments,
    analyzeImportChanges path readFile file oldPath newPath = ok fragments
    /\ fragments <> []
    /\ Forall indented fragments.
Proof.
  unfold analyzeImportChanges.
  destruct (readFile file) as [content|e].
  - eexists. split; [reflexivity|].
    pose proof (scanLines_indented (split_lines content) 0) as HI.
    destruct (fst (scan (split_lines content) 0 0)) as [|x xs]; simpl.
    + split; [discriminate|]. apply Forall_cons; [reflexivity|constructor].
    + split; [discriminate|]. exact HI.
  - eexists. split; [reflexivity|]. split; [discriminate|].
    apply Forall_cons; [reflexivity|constructor].
Qed.

End MoveReportProperties.

Section MoveReportClaims.

Variable path : PathApi.
Variable readFile : FileReader.

Local Abbreviation analyze := (analyzeImportChanges path readFile).
Local Abbreviation format := (formatMoveFileResult path readFile).


(** The block of one changed file. *)
Lemma fileResult_block (oldPath newPath root file : jsstring) :
  (file = oldPath
   /\ fileResult path readFile oldPath newPath root
        (path_relative path root oldPath) (path_relative path root newPath)
        file
      = ok [lit "  File moved: " ++ path_relative path root oldPath
              ++ arrow ++ path_relative path root newPath])
  \/ (file <> oldPath
      /\ exists fragments,
          analyze file oldPath newPath = ok fragments
          /\ fragments <> []
          /\ Forall indented fragments
          /\ fileResult path readFile oldPath newPath root
               (path_relative path root oldPath)
               (path_relative path root newPath) file
             = ok ((lit "  " ++ path_relative path root file ++ lit ":")
                     :: fragments)).
Proof.
  unfold fileResult.
  destruct (JS.eqb file oldPath) eqn:E.
  - apply eqb_spec in E. left. auto.
  - apply eqb_false in E. right. split; [exact E|].
    destruct (analyzeImportChanges_ok path readFile file oldPath newPath)
      as (fragments & Ha & Hne & Hind).
    exists fragments. rewrite Ha. auto.
Qed.

(** The [for] loop never meets an error: it appends every block. *)
Lemma collectResults_blocks (oldPath newPath root : jsstring)
    (files output : list jsstring) :
  exists blocks : list (list jsstring),
    collectResults
      (map (fileResult path readFile oldPath newPath root
              (path_relative path root oldPath)
              (path_relative path root newPath)) files) output
    = ok (output ++ concat blocks)
    /\ map ok blocks
       = map (fileResult path readFile oldPath newPath root
                (path_relative path root oldPath)
                (path_relative path root newPath)) files.
Proof.
  revert output; induction files as [|f files IH]; intros output.
  - exists []. simpl. rewrite app_nil_r. auto.
  - simpl.
    assert (B : exists block,
               fileResult path readFile oldPath newPath root
                 (path_relative path root oldPath)
                 (path_relative path root newPath) f = ok block).
    { destruct (fileResult_block oldPath newPath root f)
        as [[_ E] | [_ (fr & _ & _ & _ & E)]]; eauto. }
    destruct B as (block & EB). rewrite EB.
    destruct (IH (output ++ block)) as (blocks & EC & EM).
    exists (block :: blocks). simpl. rewrite EC, EM, <- app_assoc. auto.
Qed.

Lemma formatMoveFileResult_report_aux
    (result : MoveFileResult) (oldPath newPath root : jsstring) :
  exists report, format result oldPath newPath root = ok report.
Proof.
  unfold formatMoveFileResult. cbv zeta.
  destruct (collectResults_blocks oldPath newPath root
              (changedFiles result)
              [move_message result ++ lit ". Updated imports in "
                 ++ String_of_nat (List.length (changedFiles result))
                 ++ lit " file(s)."; []; lit "Changes:"])
    as (blocks & EC & _).
  rewrite EC. eauto.
Qed.

(** C5: the analysis of a changed file always returns a non-empty
    block; when the file cannot be read, or when no import path found
    on any line refers to the moved file, the block is the single
    placeholder line; a failed read is not an error, and the report as
    a whole is still produced. *)
Theorem analyzeImportChanges_placeholder
    (file oldPath newPath : jsstring) :
  (exists fragments,
      analyze file oldPath newPath = ok fragments /\ fragments <> [])
  /\ (forall error,
        readFile file = err error ->
        analyze file oldPath newPath
        = ok [lit "    Import statements updated"])
  /\ (forall content,
        readFile file = ok content ->
        (forall line importPath,
            In line (split_lines content) ->
            In importPath (importPaths line) ->
            refersToMovedFile path file newPath importPath = false) ->
        analyze file oldPath newPath
        = ok [lit "    Import statements updated"])
  /\ (forall error root,
        readFile file = err error -> file <> oldPath ->
        fileResult path readFile oldPath newPath root
          (path_relative path root oldPath) (path_relative path root newPath)
          file
        = ok [lit "  " ++ path_relative path root file ++ lit ":";
              lit "    Import statements updated"])
  /\ (forall result root,
        exists report, format result oldPath newPath root = ok report).
Proof.
  split; [|split; [|split; [|split]]].
  - destruct (analyzeImportChanges_ok path readFile file oldPath newPath)
      as (fragments & Ha & Hne & _). eauto.
  - intros error He. unfold analyzeImportChanges. rewrite He. reflexivity.
  - intros content Hc Hno. unfold analyzeImportChanges. rewrite Hc.
    rewrite scanLines_empty; [reflexivity|].
    intros line importPath lineNum Hl Hp.
    unfold matchFragment. rewrite (Hno line importPath Hl Hp). reflexivity.
  - intros error root He Hne. unfold fileResult.
    apply eqb_false in Hne. rewrite Hne.
    unfold analyzeImportChanges. rewrite He. reflexivity.
  - intros result root. apply formatMoveFileResult_report_aux.
Qed.


(** C7: the report of a move is the summary line
    [<message>. Updated imports in N file(s).] with [N] the number of
    entries of [changedFiles], an empty line, [Changes:], and then one
    block per changed file, in order: [File moved: old -> new] (with
    the arrow U+2192 and root-relative paths) for the moved file, and
    for every other file its root-relative path followed by its
    fragment lines, each indented; all joined by newlines. *)
Theorem formatMoveFileResult_report
    (result : MoveFileResult) (oldPath newPath root : jsstring) :
  exists blocks : list (list jsstring),
    format result oldPath newPath root
    = ok (join [LF]
            ([ move_message result ++ lit ". Updated imports in "
                 ++ String_of_nat (List.length (changedFiles result))
                 ++ lit " file(s).";
               [];
               lit "Changes:" ]
               ++ concat blocks))
    /\ Forall2
         (fun file block =>
            (file = oldPath
             /\ block = [lit "  File moved: "
                           ++ path_relative path root oldPath
                           ++ [32; 8594; 32]%N
                           ++ path_relative path root newPath])
            \/ (file <> oldPath
                /\ exists fragments,
                    analyze file oldPath newPath = ok fragments
                    /\ fragments <> []
                    /\ Forall indented fragments
                    /\ block
                       = (lit "  " ++ path_relative path root file
                            ++ lit ":") :: fragments))
         (changedFiles result) blocks.
Proof.
  unfold formatMoveFileResult. cbv zeta.
  destruct (collectResults_blocks oldPath newPath root
              (changedFiles result)
              [move_message result ++ lit ". Updated imports in "
                 ++ String_of_nat (List.length (changedFiles result))
                 ++ lit " file(s)."; []; lit "Changes:"])
    as (blocks & EC & EM).
  exists blocks. rewrite EC. split; [reflexivity|].
  clear EC. revert blocks EM.
  induction (changedFiles result) as [|f files IH];
    intros [|block blocks] EM; try discriminate; constructor.
  - simpl in EM. injection EM as EB EM.
    destruct (fileResult_block oldPath newPath root f)
      as [[Hf E] | [Hf (fr & Ha & Hne & Hind & E)]];
      rewrite E in EB; injection EB as ->.
    + left. auto.
    + right. split; [exact Hf|]. exists fr. auto.
  - simpl in EM. injection EM as _ EM. apply IH. exact EM.
Qed.

(** C10: formatting a move report cannot fail.  The analysis returns
    [ok] on every path, also when the read fails, so every per-file
    result is [ok] and the report is a success value.  And a match
    yields a fragment only when the reconstructed old line differs
    from the current line: when the substitution leaves the line
    unchanged, nothing is pushed. *)
Theorem formatMoveFileResult_never_fails
    (result : MoveFileResult) (oldPath newPath root : jsstring) :
  (exists report, format result oldPath newPath root = ok report)
  /\ (forall file,
        exists fragments, analyze file oldPath newPath = ok fragments)
  /\ Forall (fun r => isErr r = false)
       (map (fileResult path readFile oldPath newPath root
               (path_relative path root oldPath)
               (path_relative path root newPath))
          (changedFiles result))
  /\ (forall file line lineNum importPath,
        matchFragment path file oldPath newPath line lineNum importPath
        <> [] ->
        reconstructOldLine path file oldPath line importPath <> line)
  /\ (forall file line lineNum importPath,
        reconstructOldLine path file oldPath line importPath = line ->
        matchFragment path file oldPath newPath line lineNum importPath
        = []).
Proof.
  split; [|split; [|split; [|split]]].
  - destruct (formatMoveFileResult_report_aux result oldPath newPath root)
      as (report & E). eauto.
  - intros file.
    destruct (analyzeImportChanges_ok path readFile file oldPath newPath)
      as (fragments & Ha & _). eauto.
  - apply Forall_forall. intros r Hr. apply in_map_iff in Hr.
    destruct Hr as (f & <- & _).
    destruct (fileResult_block oldPath newPath root f)
      as [[_ E] | [_ (fr & _ & _ & _ & E)]]; rewrite E; reflexivity.
  - intros file line lineNum importPath Hne.
    destruct (matchFragment_cases path file oldPath newPath line lineNum
                importPath) as [(_ & Hd & _) | (_ & E)];
      [exact Hd | contradiction].
  - intros file line lineNum importPath He.
    destruct (matchFragment_cases path file oldPath newPath line lineNum
                importPath) as [(_ & Hd & _) | (_ & E)];
      [contradiction | exact E].
Qed.

End MoveReportClaims.

(* ================================================================== *)
(** ** The move-file tool: failures of handleMoveFile *)
(* ================================================================== *)

Section MoveToolProperties.

Variable path : PathApi.
Variables Project Memory Disk : Type.
Variable project_find : jsstring -> M Memory Project.
Variable project_refresh : jsstring -> Disk -> M Memory unit.
Variable project_move :
  Project -> MoveOptions -> M Memory (Result MoveFileResult jsstring).
Variable project_save : Project -> Memory -> M Disk unit.

Local Abbreviation World := (MoveWorld Memory Disk).
Local Abbreviation run_handleMoveFile :=
  (handleMoveFile path project_find project_refresh project_move
     project_save).

(** Two recorded answers of the same call are the same answer. *)
Ltac same_answers :=
  repeat match goal with
         | H : (_, _) = (_, _) |- _ => inversion H; clear H; subst
         | H1 : ?f = (_, _), H2 : ?f = (_, _) |- _ => rewrite H1 in H2
         end.

(** C1: when the source file cannot be loaded in preflight, the
    result is the error [File not found: <absolute old path>] and the
    move primitive is not called; when the move primitive returns an
    error, the result is that error; and whenever [handleMoveFile]
    returns an error, [project.save()] was not called and the files
    on disk are as they were. *)
Theorem handleMoveFile_failure (request : MoveRequest) (w : World) :
  let absoluteOldPath :=
    path_join path (move_root request) (oldPath request) in
  let absoluteNewPath :=
    path_join path (move_root request) (newPath request) in
  let options :=
    {| oldFilename := absoluteOldPath; newFilename := absoluteNewPath;
       opt_overwrite := overwrite request |} in
  let outcome := run_handleMoveFile request w in
  exists issued : list ProjectCall,
    project_calls (snd outcome) = project_calls w ++ issued
    /\ (forall error,
          fst outcome = ok (err error) ->
          ~ In Save issued /\ disk (snd outcome) = disk w)
    /\ (forall project m1 thrown m2,
          project_find absoluteOldPath (memory w) = (ok project, m1) ->
          project_refresh absoluteOldPath (disk w) m1 = (err thrown, m2) ->
          fst outcome = ok (err (lit "File not found: " ++ absoluteOldPath))
          /\ issued = [FindProjectForFile absoluteOldPath;
                       GetOrCreateSourceFileWithRefresh absoluteOldPath]
          /\ (forall o, ~ In (MoveFile o) issued))
    /\ (forall project m1 m2 error m3,
          project_find absoluteOldPath (memory w) = (ok project, m1) ->
          project_refresh absoluteOldPath (disk w) m1 = (ok tt, m2) ->
          project_move project options m2 = (ok (err error), m3) ->
          fst outcome = ok (err error)
          /\ issued = [FindProjectForFile absoluteOldPath;
                       GetOrCreateSourceFileWithRefresh absoluteOldPath;
                       MoveFile options]).
Proof.
  intros absoluteOldPath absoluteNewPath options outcome.
  subst outcome. unfold handleMoveFile.
  fold absoluteOldPath. fold absoluteNewPath. fold options.
  unfold bind, findProjectForFile, getOrCreateSourceFileWithRefresh,
    moveFile, save, in_memory, ret.
  destruct (project_find absoluteOldPath (memory w))
    as [[project|e0] m1] eqn:Efind; simpl.
  - destruct (project_refresh absoluteOldPath (disk w) m1)
      as [[[]|e1] m2] eqn:Eload; simpl.
    + destruct (project_move project options m2)
        as [[[value|e2]|e2] m3] eqn:Emove; simpl.
      * destruct (project_save project m3 (disk w)) as [[[]|e3] d] eqn:Esave;
          simpl; rewrite <- !app_assoc; simpl;
          (eexists; split; [reflexivity|]);
          (split; [intros error H; discriminate|]);
          (split; [intros p a t b H1 H2; same_answers|]);
          intros p a b error c H1 H2 H3; same_answers.
      * rewrite <- !app_assoc; simpl.
        eexists; split; [reflexivity|].
        split; [intros error H; split; [|reflexivity];
                simpl; intuition discriminate|].
        split; [intros p a t b H1 H2; same_answers|].
        intros p a b error c H1 H2 H3. same_answers. auto.
      * rewrite <- !app_assoc; simpl.
        eexists; split; [reflexivity|].
        split; [intros error H; discriminate|].
        split; [intros p a t b H1 H2; same_answers|].
        intros p a b error c H1 H2 H3. same_answers.
    + rewrite <- !app_assoc; simpl.
      eexists; split; [reflexivity|].
      split; [intros error H; split; [|reflexivity];
              simpl; intuition discriminate|].
      split.
      * intros p a t b H1 H2. split; [reflexivity|]. split; [reflexivity|].
        intros o; simpl; intuition discriminate.
      * intros p a b error c H1 H2 H3. same_answers.
  - exists [FindProjectForFile absoluteOldPath]. split; [reflexivity|].
    split; [intros error H; discriminate|].
    split; intros; discriminate.
Qed.

End MoveToolProperties.

(* ================================================================== *)
(** ** The symbol resolver: whole tokens first *)
(* ================================================================== *)

Section ResolverProperties.

Import Resolver.

Lemma firstIndex_some (f : nat -> bool) (from n i : nat) :
  firstIndex f from n = Some i ->
  from <= i < from + n /\ f i = true
  /\ forall j, from <= j < i -> f j = false.
Proof.
  revert from; induction n as [|n IH]; intros from; simpl; [discriminate|].
  destruct (f from) eqn:E.
  - intros H; injection H as <-.
    repeat split; auto; try lia.
  - intros H. apply IH in H. destruct H as (Hr & Hf & Hmin).
    repeat split; auto; try lia.
    intros j Hj. destruct (Nat.eq_dec j from) as [->|Hne]; [exact E|].
    apply Hmin. lia.
Qed.

Lemma firstIndex_none (f : nat -> bool) (from n : nat) :
  firstIndex f from n = None ->
  forall j, from <= j < from + n -> f j = false.
Proof.
  revert from; induction n as [|n IH]; intros from; simpl.
  - intros _ j Hj; lia.
  - destruct (f from) eqn:E; [discriminate|].
    intros H j Hj. destruct (Nat.eq_dec j from) as [->|Hne]; [exact E|].
    apply (@IH _ H). lia.
Qed.

Lemma occursAt_inside (line symbol : jsstring) (i : nat) :
  occursAt line symbol i = true -> i < S (List.length line).
Proof.
  unfold occursAt. rewrite andb_true_iff, Nat.leb_le. lia.
Qed.

Lemma wholeTokenAt_occurs (line symbol : jsstring) (i : nat) :
  wholeTokenAt line symbol i = true -> occursAt line symbol i = true.
Proof.
  unfold wholeTokenAt. rewrite !andb_true_iff. tauto.
Qed.

(** C9: when the target occurs on the line as a whole token, the
    resolver returns the index of a whole-token occurrence (the first
    one), not of an occurrence inside a longer token; whatever index
    it returns is an occurrence of the target; and it fails exactly
    when the target does not occur on the line at all. *)
Theorem findSymbolInLine_prefers_whole_token (line symbol : jsstring) :
  (forall i,
      wholeTokenAt line symbol i = true ->
      exists k,
        findSymbolInLine line symbol = ok k
        /\ wholeTokenAt line symbol k = true
        /\ k <= i)
  /\ (forall k,
        findSymbolInLine line symbol = ok k ->
        occursAt line symbol k = true)
  /\ ((exists error, findSymbolInLine line symbol = err error)
      <-> forall i, occursAt line symbol i = false).
Proof.
  unfold findSymbolInLine.
  destruct (firstIndex (wholeTokenAt line symbol) 0 (S (List.length line)))
    as [k|] eqn:Ew.
  - apply firstIndex_some in Ew. destruct Ew as (Hr & Hk & Hmin).
    split; [|split].
    + intros i Hi. exists k. repeat split; auto.
      destruct (Nat.le_gt_cases k i) as [Hle|Hgt]; [exact Hle|].
      rewrite Hmin in Hi by lia. discriminate.
    + intros k' H; injection H as <-. apply wholeTokenAt_occurs, Hk.
    + split.
      * intros [error H]; discriminate.
      * intros H. apply wholeTokenAt_occurs in Hk. rewrite H in Hk.
        discriminate.
  - pose proof (@firstIndex_none _ _ _ Ew) as Hnone.
    split; [|split].
    + intros i Hi. rewrite Hnone in Hi; [discriminate|].
      apply wholeTokenAt_occurs, occursAt_inside in Hi. lia.
    + destruct (firstIndex (occursAt line symbol) 0 (S (List.length line)))
        as [k|] eqn:Eo; [|discriminate].
      intros k' H; injection H as <-.
      apply firstIndex_some in Eo. tauto.
    + destruct (firstIndex (occursAt line symbol) 0 (S (List.length line)))
        as [k|] eqn:Eo.
      * apply firstIndex_some in Eo. destruct Eo as (_ & Hk & _).
        split; [intros [error H]; discriminate|].
        intros H. rewrite H in Hk. discriminate.
      * split; [|eauto].
        intros _ i. destruct (occursAt line symbol i) eqn:Ei; [|reflexivity].
        rewrite <- Ei. apply (@firstIndex_none _ _ _ Eo).
        apply occursAt_inside in Ei. lia.
Qed.

End ResolverProperties.

(* ================================================================== *)
(** ** The properties on concrete requests *)
(* ================================================================== *)

Import Scenario.

(** C3 on the request for [bar] in [foo.ts], without a line: the
    server knows nothing about [bar]; and on a file that is not
    there. *)
Lemma getHover_null_witness :
  fst (hoverTool None barRequest hoverWorld)
  = ok {| message :=
            lit "No hover information available for "
              ++ [DQUOTE] ++ lit "bar" ++ [DQUOTE] ++ lit " at foo.ts:5:7";
          hover := None |}
  /\ (exists e, fst (hoverTool None missingFileRequest hoverWorld) = err e)
  /\ (exists e, fst (hoverTool None barRequest noSessionWorld) = err e).
Proof.
  split; [|split].
  - destruct (@getHover_null_is_success_failure_is_error posix ServerState
                client_openDocument (client_getHover None) parseLineNumber
                findSymbolInLine findTargetInFile barRequest hoverWorld)
      as (_ & H & _).
    refine (H fooText 4 6 [(fooUri, fooText)] [(fooUri, fooText)]
              _ eq_refl eq_refl).
    apply resolves_in_file; reflexivity.
  - destruct (@getHover_null_is_success_failure_is_error posix ServerState
                client_openDocument (client_getHover None) parseLineNumber
                findSymbolInLine findTargetInFile missingFileRequest
                hoverWorld) as (_ & _ & H).
    apply H. eapply file_unreadable. reflexivity.
  - destruct (@getHover_null_is_success_failure_is_error posix ServerState
                client_openDocument (client_getHover None) parseLineNumber
                findSymbolInLine findTargetInFile barRequest
                noSessionWorld) as (_ & _ & H).
    apply H. eapply no_active_session. reflexivity.
Defined.

(** C4 on the same request: a range from the server, and none. *)
Lemma formatHoverResult_range_witness :
  formatHoverResult posix (Some numberHover) barRequest 4 6 hoverWorld
  = (ok (ok {| message :=
                 lit "Hover information for " ++ [DQUOTE] ++ lit "bar"
                   ++ [DQUOTE] ++ lit " at foo.ts:5:7";
               hover := Some
                 {| hover_contents := lit "const bar: number";
                    hover_range := Some
                      {| range_start := {| line := 5; character := 7 |};
                         range_end := {| line := 5; character := 10 |} |}
                 |} |}), hoverWorld)
  /\ formatHoverResult posix (Some rangelessHover) barRequest 4 6 hoverWorld
     = (ok (ok {| message :=
                    lit "Hover information for " ++ [DQUOTE] ++ lit "bar"
                      ++ [DQUOTE] ++ lit " at foo.ts:5:7";
                  hover := Some
                    {| hover_contents :=
                         lit "const bar: number" ++ [LF] ++ lit "The sum.";
                       hover_range := Some
                         {| range_start := {| line := 1; character := 1 |};
                            range_end := {| line := 10; character := 10 |} |}
                    |} |}), hoverWorld).
Proof.
  split.
  - destruct (formatHoverResult_range posix numberHover barRequest 4 6
                hoverWorld) as [H _].
    exact (H _ eq_refl).
  - destruct (formatHoverResult_range posix rangelessHover barRequest 4 6
                hoverWorld) as [_ H].
    exact (H fooText eq_refl eq_refl).
Defined.

(** C8 fails as stated: a request for a file that cannot be read is a
    hover invocation without any call to the server, so without a hover
    query. *)
Lemma getHover_unreadable_file_counterexample :
  (exists e, fst (hoverTool None missingFileRequest hoverWorld) = err e)
  /\ calls (snd (hoverTool None missingFileRequest hoverWorld)) = []
  /\ hoverQueries (calls (snd (hoverTool None missingFileRequest hoverWorld)))
     <> 1.
Proof.
  split; [eexists; reflexivity|]. split; [reflexivity|].
  vm_compute. discriminate.
Qed.

(** C8 on the request that resolves: the three calls, in order. *)
Lemma getHover_call_order_witness :
  calls (snd (hoverTool None barRequest hoverWorld))
  = [OpenDocument fooUri fooText; Delay 1000;
     GetHover fooUri {| line := 4; character := 6 |}]
  /\ calls (snd (hoverTool None missingFileRequest hoverWorld)) = [].
Proof.
  split; [|destruct (@getHover_call_order posix ServerState
                      client_openDocument (client_getHover None)
                      parseLineNumber findSymbolInLine findTargetInFile
                      missingFileRequest hoverWorld)
             as (issued & Hcalls & _ & _ & _ & Hfail);
           unfold hoverTool; rewrite Hcalls, Hfail;
           [reflexivity | eapply file_unreadable; reflexivity]].
  destruct (@getHover_call_order posix ServerState client_openDocument
              (client_getHover None) parseLineNumber findSymbolInLine
              findTargetInFile barRequest hoverWorld)
    as (issued & Hcalls & _ & _ & Hfull & _).
  unfold hoverTool. rewrite Hcalls.
  rewrite (Hfull fooText 4 6 [(fooUri, fooText)]);
    [reflexivity | apply resolves_in_file; reflexivity | reflexivity].
Defined.

(** C1 on a move onto an existing file without [overwrite], and on a
    move of a file that is not there. *)
Lemma handleMoveFile_failure_witness :
  (fst (moveTool ontoExisting moveWorld) = ok (err (lit "Destination exists"))
   /\ disk (snd (moveTool ontoExisting moveWorld)) = disk moveWorld)
  /\ fst (moveTool fromMissing moveWorld)
     = ok (err (lit "File not found: /p/src/gone.ts")).
Proof.
  split.
  - destruct (@handleMoveFile_failure posix unit (list jsstring)
                (list jsstring) project_find project_refresh project_move
                project_save ontoExisting moveWorld)
      as (issued & _ & Hsave & _ & Hmove).
    destruct (Hmove tt [lit "/p/src/b.ts"]
                [lit "/p/src/a.ts"; lit "/p/src/b.ts"]
                (lit "Destination exists")
                [lit "/p/src/a.ts"; lit "/p/src/b.ts"]
                eq_refl eq_refl eq_refl) as [Hres _].
    split; [exact Hres|]. exact (proj2 (Hsave _ Hres)).
  - destruct (@handleMoveFile_failure posix unit (list jsstring)
                (list jsstring) project_find project_refresh project_move
                project_save fromMissing moveWorld)
      as (issued & _ & _ & Hload & _).
    exact (proj1 (Hload tt [lit "/p/src/b.ts"] (lit "ENOENT")
                    [lit "/p/src/b.ts"] eq_refl eq_refl)).
Defined.

(** C5 on a changed file that cannot be read, and on one whose only
    import is of another file. *)
Lemma analyzeImportChanges_placeholder_witness :
  analyzeImportChanges posix reportFiles (lit "/p/d.ts") movedFrom movedTo
  = ok [lit "    Import statements updated"]
  /\ analyzeImportChanges posix reportFiles unrelated movedFrom movedTo
     = ok [lit "    Import statements updated"]
  /\ fileResult posix reportFiles movedFrom movedTo (lit "/p")
       (path_relative posix (lit "/p") movedFrom)
       (path_relative posix (lit "/p") movedTo) (lit "/p/d.ts")
     = ok [lit "  d.ts:"; lit "    Import statements updated"].
Proof.
  split; [|split].
  - destruct (analyzeImportChanges_placeholder posix reportFiles
                (lit "/p/d.ts") movedFrom movedTo) as (_ & H & _).
    exact (H (lit "ENOENT") eq_refl).
  - destruct (analyzeImportChanges_placeholder posix reportFiles
                unrelated movedFrom movedTo) as (_ & _ & H & _).
    apply (H unrelatedLine eq_refl).
    intros line importPath Hl Hp.
    destruct Hl as [<-|[]]. destruct Hp as [<-|[]]. reflexivity.
  - destruct (analyzeImportChanges_placeholder posix reportFiles
                (lit "/p/d.ts") movedFrom movedTo) as (_ & _ & _ & H & _).
    refine (H (lit "ENOENT") (lit "/p") eq_refl _).
    apply eqb_false. reflexivity.
Defined.


(** The whole report of the move of [/p/a.ts] with three changed
    files. *)
Example formatMoveFileResult_example :
  formatMoveFileResult posix reportFiles moveResult movedFrom movedTo
    (lit "/p")
  = ok (join [LF]
          [ lit "Moved. Updated imports in 3 file(s).";
            [];
            lit "Changes:";
            lit "  File moved: a.ts" ++ [32; 8594; 32]%N ++ lit "sub/a.ts";
            lit "  b.ts:";
            lit "    @@ -2,1 +2,1 @@";
            lit "    - import {x} from './a.ts';";
            lit "    + import {x} from './sub/a';";
            lit "  d.ts:";
            lit "    Import statements updated" ]).
Proof. vm_compute. reflexivity. Qed.

(** C7 on that move: the three head lines and three blocks. *)
Lemma formatMoveFileResult_report_witness :
  exists blocks : list (list jsstring),
    formatMoveFileResult posix reportFiles moveResult movedFrom movedTo
      (lit "/p")
    = ok (join [LF]
            ([ lit "Moved. Updated imports in 3 file(s).";
               [];
               lit "Changes:" ]
               ++ concat blocks))
    /\ List.length blocks = 3.
Proof.
  destruct (formatMoveFileResult_report posix reportFiles moveResult
              movedFrom movedTo (lit "/p")) as (blocks & E & F).
  exists blocks. split; [exact E|].
  apply Forall2_length in F. symmetry. exact F.
Defined.

(** C9 on [bar] in [const foobar = bar;]: index 15, not 9; and on a
    line without [bar]. *)
Lemma findSymbolInLine_prefers_whole_token_witness :
  Resolver.occursAt (lit "const foobar = bar;") (lit "bar") 9 = true
  /\ Resolver.wholeTokenAt (lit "const foobar = bar;") (lit "bar") 9 = false
  /\ (exists k,
        Resolver.findSymbolInLine (lit "const foobar = bar;") (lit "bar")
        = ok k
        /\ Resolver.wholeTokenAt (lit "const foobar = bar;") (lit "bar") k
           = true
        /\ k <= 15)
  /\ Resolver.occursAt (lit "const foobar = bar;") (lit "bar") 15 = true
  /\ (forall i, Resolver.occursAt (lit "const a = 1;") (lit "bar") i = false).
Proof.
  split; [reflexivity|]. split; [reflexivity|].
  destruct (findSymbolInLine_prefers_whole_token
              (lit "const foobar = bar;") (lit "bar")) as (H1 & H2 & _).
  split; [exact (H1 15 eq_refl)|]. split; [exact (H2 15 eq_refl)|].
  destruct (findSymbolInLine_prefers_whole_token
              (lit "const a = 1;") (lit "bar")) as (_ & _ & H3).
  apply H3. eexists. reflexivity.
Defined.

(** C10 on the import that the substitution leaves as it is, and on
    the one that it changes. *)
Lemma formatMoveFileResult_never_fails_witness :
  matchFragment posix esmImporter convertedFrom convertedTo esmImporterLine 1
    (lit "./util.js") = []
  /\ reconstructOldLine posix importer movedFrom importerLine (lit "./sub/a")
     <> importerLine.
Proof.
  split.
  - destruct (formatMoveFileResult_never_fails posix reportFiles moveResult
                convertedFrom convertedTo (lit "/p")) as (_ & _ & _ & _ & H5).
    apply H5. vm_compute. reflexivity.
  - destruct (formatMoveFileResult_never_fails posix reportFiles moveResult
                movedFrom movedTo (lit "/p")) as (_ & _ & _ & H4 & _).
    apply (H4 importer importerLine 2 (lit "./sub/a")).
    vm_compute. discriminate.
Defined.

(* ================================================================== *)
(** ** Strings: occurrences and lines *)
(* ================================================================== *)

Lemma startsWith_iff (s p : jsstring) :
  startsWith s p = true <-> exists r, s = p ++ r.
Proof.
  revert s; induction p as [|x p IH]; intros s.
  - destruct s; simpl; split; eauto.
  - destruct s as [|y s]; simpl.
    + split; [discriminate | intros [r H]; discriminate].
    + rewrite andb_true_iff, N.eqb_eq, IH. split.
      * intros [-> [r ->]]. eauto.
      * intros [r H]. injection H as -> ->. eauto.
Qed.

Lemma indexOf_some (s p : jsstring) (i : nat) :
  indexOf s p = Some i ->
  exists a b, s = a ++ p ++ b /\ List.length a = i.
Proof.
  revert i; induction s as [|c s IH]; intros i; cbn [indexOf].
  - destruct (startsWith [] p) eqn:E; [|discriminate].
    intros H; injection H as <-.
    apply startsWith_iff in E. destruct E as [r E]. exists [], r. auto.
  - destruct (startsWith (c :: s) p) eqn:E.
    + intros H; injection H as <-.
      apply startsWith_iff in E. destruct E as [r E]. exists [], r. auto.
    + destruct (indexOf s p) as [j|] eqn:Ej; [|discriminate].
      intros H; injection H as <-.
      destruct (IH j eq_refl) as (a & b & -> & <-).
      exists (c :: a), b. auto.
Qed.

Lemma indexOf_app (a p b : jsstring) :
  exists i, indexOf (a ++ p ++ b) p = Some i /\ i <= List.length a.
Proof.
  induction a as [|c a (i & Hi & Hle)].
  - exists 0. split; [|simpl; lia].
    assert (E : startsWith (p ++ b) p = true)
      by (apply startsWith_iff; eauto).
    simpl app. destruct (p ++ b); simpl in *; rewrite E; reflexivity.
  - simpl app. cbn [indexOf].
    destruct (startsWith (c :: a ++ p ++ b) p).
    + exists 0. split; [reflexivity | simpl; lia].
    + rewrite Hi. exists (S i). split; [reflexivity | simpl; lia].
Qed.

Lemma firstn_exact (a r : jsstring) : firstn (List.length a) (a ++ r) = a.
Proof.
  induction a as [|c a IH]; simpl; [destruct r; reflexivity|].
  rewrite IH. reflexivity.
Qed.

Lemma skipn_exact (a r : jsstring) : skipn (List.length a) (a ++ r) = r.
Proof. induction a as [|c a IH]; simpl; auto. Qed.

(** [s.includes(p)] holds exactly when [p] stands somewhere in [s]. *)
Lemma includes_iff (s p : jsstring) :
  includes s p = true <-> exists a b, s = a ++ p ++ b.
Proof.
  unfold includes. split.
  - destruct (indexOf s p) as [i|] eqn:E; [|discriminate].
    intros _. destruct (indexOf_some _ _ E) as (a & b & H & _). eauto.
  - intros (a & b & ->). destruct (indexOf_app a p b) as (i & -> & _).
    reflexivity.
Qed.

Lemma split_lines_plain (a : jsstring) :
  ~ In LF a -> split_lines a = [a].
Proof.
  induction a as [|c a IH]; intros H; [reflexivity|].
  simpl. destruct (N.eqb_spec c LF) as [->|_].
  - exfalso. apply H. left. reflexivity.
  - rewrite IH; [reflexivity|]. intros Hin. apply H. right. exact Hin.
Qed.

Lemma split_lines_app (a r : jsstring) :
  ~ In LF a -> split_lines (a ++ LF :: r) = a :: split_lines r.
Proof.
  induction a as [|c a IH]; intros H.
  - reflexivity.
  - simpl. destruct (N.eqb_spec c LF) as [->|_].
    + exfalso. apply H. left. reflexivity.
    + rewrite IH; [reflexivity|]. intros Hin. apply H. right. exact Hin.
Qed.

(** No line of [split] holds a newline. *)
Lemma split_lines_no_LF (s line : jsstring) :
  In line (split_lines s) -> ~ In LF line.
Proof.
  revert line; induction s as [|c s IH]; intros line; simpl.
  - intros [<-|[]] [].
  - destruct (N.eqb_spec c LF) as [->|Hc].
    + intros [<-|H]; [intros [] | apply IH; exact H].
    + destruct (split_lines s) as [|l ls] eqn:E.
      * intros [<-|[]] [H|[]]. congruence.
      * intros [<-|H].
        -- intros [H|H]; [congruence|]. apply (IH l); simpl; auto.
        -- apply IH. simpl. auto.
Qed.

(** [s.split(LF).join(LF)] is [s]. *)
Lemma join_split_lines (s : jsstring) : join [LF] (split_lines s) = s.
Proof.
  induction s as [|c s IH]; [reflexivity|].
  simpl. destruct (N.eqb_spec c LF) as [->|Hc].
  - destruct (split_lines s) as [|l ls] eqn:E.
    + exfalso. exact (split_lines_nonempty s E).
    + rewrite join_cons, IH. reflexivity.
  - destruct (split_lines s) as [|l ls] eqn:E.
    + exfalso. exact (split_lines_nonempty s E).
    + destruct ls as [|l' ls].
      * simpl in *. rewrite IH. reflexivity.
      * rewrite join_cons in *. rewrite <- IH. reflexivity.
Qed.

(** Lines without newlines, joined and split again, are the lines. *)
Lemma split_lines_join (lines : list jsstring) :
  lines <> [] ->
  Forall (fun l => ~ In LF l) lines ->
  split_lines (join [LF] lines) = lines.
Proof.
  induction lines as [|l ls IH]; intros Hne HF; [contradiction|].
  inversion HF as [|? ? Hl Hls]; subst.
  destruct ls as [|l' ls].
  - simpl. apply split_lines_plain. exact Hl.
  - rewrite join_cons.
    change (l ++ [LF] ++ join [LF] (l' :: ls))
      with (l ++ LF :: join [LF] (l' :: ls)).
    rewrite split_lines_app by exact Hl.
    rewrite IH; [reflexivity | discriminate | exact Hls].
Qed.

(** Every line is a piece of the text. *)
Lemma split_lines_piece (s line : jsstring) :
  In line (split_lines s) -> exists a b, s = a ++ line ++ b.
Proof.
  revert line; induction s as [|c s IH]; intros line; simpl.
  - intros [<-|[]]. exists [], []. reflexivity.
  - destruct (N.eqb_spec c LF) as [->|Hc].
    + intros [<-|H].
      * exists [], (LF :: s). reflexivity.
      * destruct (IH _ H) as (a & b & ->). exists (LF :: a), b. reflexivity.
    + destruct (split_lines s) as [|l ls] eqn:E.
      * exfalso. exact (split_lines_nonempty s E).
      * intros [<-|H].
        -- destruct (IH l (or_introl eq_refl)) as (a & b & Hs).
           (* the first line of [s] starts [s] *)
           assert (F : exists b', s = l ++ b').
           { clear -E. revert l ls E.
             induction s as [|d s IHs]; intros l ls E; simpl in E.
             - injection E as <- _. exists []. reflexivity.
             - destruct (N.eqb d LF).
               + injection E as <- _. exists (d :: s). reflexivity.
               + destruct (split_lines s) as [|m ms] eqn:Em.
                 * injection E as <- _. 
                   exfalso. exact (split_lines_nonempty s Em).
                 * injection E as <- _.
                   destruct (IHs m ms eq_refl) as [b' ->].
                   exists b'. reflexivity. }
           destruct F as [b' ->]. exists [], b'. reflexivity.
        -- destruct (IH line (or_intror H)) as (a & b & ->).
           exists (c :: a), b. reflexivity.
Qed.

Lemma split_lines_length (s : jsstring) :
  List.length (split_lines s) = S (countLF s).
Proof.
  unfold countLF. induction s as [|c s IH]; [reflexivity|].
  cbn [split_lines filter].
  destruct (N.eqb_spec c LF) as [->|Hc].
  - change (N.eqb LF LF) with true. cbn [List.length]. rewrite IH.
    reflexivity.
  - assert (Hf : N.eqb LF c = false) by (apply N.eqb_neq; congruence).
    rewrite Hf.
    destruct (split_lines s) as [|l ls] eqn:E.
    + exfalso. exact (split_lines_nonempty s E).
    + cbn [List.length] in *. exact IH.
Qed.

Lemma split_lines_last_empty (s : jsstring) :
  last (split_lines (s ++ [LF])) [] = [].
Proof.
  induction s as [|c s IH]; [reflexivity|].
  simpl app. cbn [split_lines].
  destruct (N.eqb c LF).
  - destruct (split_lines (s ++ [LF])) as [|l ls] eqn:E.
    + exfalso. exact (split_lines_nonempty _ E).
    + exact IH.
  - destruct (split_lines (s ++ [LF])) as [|l ls] eqn:E.
    + exfalso. exact (split_lines_nonempty _ E).
    + destruct ls as [|l' ls].
      * simpl in IH. subst l.
        (* the only line of a text that ends in a newline: impossible *)
        exfalso.
        assert (L : List.length (split_lines (s ++ [LF])) = 1)
          by (rewrite E; reflexivity).
        rewrite split_lines_length in L. unfold countLF in L.
        rewrite filter_app, length_app in L. simpl in L. lia.
      * exact IH.
Qed.

(* ================================================================== *)
(** ** The hover tool: errors, answers and the text returned *)
(* ================================================================== *)

Section HoverFurther.

Variable path : PathApi.
Variable ServerState : Type.
Variable client_openDocument :
  jsstring -> jsstring -> M ServerState unit.
Variable client_getHover :
  jsstring -> Position -> M ServerState (option HoverResult).
Variable parseLineNumber :
  list jsstring -> LineSpec -> Thrown (Result nat jsstring).
Variable findSymbolInLine :
  option jsstring -> jsstring -> Thrown (Result nat jsstring).
Variable findTargetInFile :
  list jsstring -> jsstring -> Thrown (Result (nat * nat) jsstring).

Local Abbreviation World := (HoverWorld ServerState).
Local Abbreviation resolves :=
  (Resolves path parseLineNumber findSymbolInLine findTargetInFile).
Local Abbreviation fails :=
  (Fails path parseLineNumber findSymbolInLine findTargetInFile).
Local Abbreviation run_getHover :=
  (getHover path client_openDocument client_getHover
     parseLineNumber findSymbolInLine findTargetInFile).
Local Abbreviation run_execute :=
  (lspGetHoverTool_execute path client_openDocument client_getHover
     parseLineNumber findSymbolInLine findTargetInFile).
Local Abbreviation abs := (absolutePathOf path).
Local Abbreviation uri := (fileUriOf path).

Ltac hover_steps :=
  unfold absolutePathOf in *;
  unfold getHover, getHoverWithoutLine, try_catch, bind, getActiveClient,
    readFileSync, lift, ret.

(** X1: the text of a hover error.  What [getActiveClient], the file
    read or a helper throws is returned as it is; the error of the line
    helper and of the target helper is followed by [ in <filePath>],
    the error of the symbol helper by [ on line <n>], without the file;
    in none of these cases is the world changed. *)
Theorem getHover_error_text (request : GetHoverRequest) (w : World) :
  (forall e, activeClient w = err e -> run_getHover request w = (err e, w))
  /\ (forall e,
        activeClient w = ok tt -> files w (abs request) = err e ->
        run_getHover request w = (err e, w))
  /\ (forall content,
        activeClient w = ok tt -> files w (abs request) = ok content ->
        (forall e,
            req_line request = None ->
            findTargetInFile (split_lines content) (target request)
            = ok (err e) ->
            run_getHover request w
            = (err (e ++ lit " in " ++ filePath request), w))
        /\ (forall e,
              req_line request = None ->
              findTargetInFile (split_lines content) (target request)
              = err e ->
              run_getHover request w = (err e, w))
        /\ (forall lineSpec e,
              req_line request = Some lineSpec ->
              parseLineNumber (split_lines content) lineSpec = ok (err e) ->
              run_getHover request w
              = (err (e ++ lit " in " ++ filePath request), w))
        /\ (forall lineSpec e,
              req_line request = Some lineSpec ->
              parseLineNumber (split_lines content) lineSpec = err e ->
              run_getHover request w = (err e, w))
        /\ (forall lineSpec l e,
              req_line request = Some lineSpec ->
              parseLineNumber (split_lines content) lineSpec = ok (ok l) ->
              findSymbolInLine (nth_error (split_lines content) l)
                (target request) = ok (err e) ->
              run_getHover request w
              = (err (e ++ lit " on line " ++ String_of_nat (l + 1)), w))
        /\ (forall lineSpec l e,
              req_line request = Some lineSpec ->
              parseLineNumber (split_lines content) lineSpec = ok (ok l) ->
              findSymbolInLine (nth_error (split_lines content) l)
                (target request) = err e ->
              run_getHover request w = (err e, w))).
Proof.
  split; [|split].
  - intros e He. hover_steps.
    destruct (req_line request); rewrite He; reflexivity.
  - intros e Hc He. hover_steps.
    destruct (req_line request); rewrite Hc; cbv beta iota; rewrite He;
      reflexivity.
  - intros content Hc Hf.
    repeat split.
    + intros e Hl Ht. hover_steps. rewrite Hl, Hc. cbv beta iota.
      rewrite Hf. cbv beta iota. rewrite Ht. reflexivity.
    + intros e Hl Ht. hover_steps. rewrite Hl, Hc. cbv beta iota.
      rewrite Hf. cbv beta iota. rewrite Ht. reflexivity.
    + intros ls e Hl Hp. hover_steps. rewrite Hl, Hc. cbv beta iota.
      rewrite Hf. cbv beta iota. rewrite Hp. reflexivity.
    + intros ls e Hl Hp. hover_steps. rewrite Hl, Hc. cbv beta iota.
      rewrite Hf. cbv beta iota. rewrite Hp. reflexivity.
    + intros ls l e Hl Hp Hs. hover_steps. rewrite Hl, Hc. cbv beta iota.
      rewrite Hf. cbv beta iota. rewrite Hp. cbv beta iota. rewrite Hs.
      reflexivity.
    + intros ls l e Hl Hp Hs. hover_steps. rewrite Hl, Hc. cbv beta iota.
      rewrite Hf. cbv beta iota. rewrite Hp. cbv beta iota. rewrite Hs.
      reflexivity.
Qed.

(** The text of the file, as the fallback range of a hover reports it. *)
Lemma formatHoverResult_answer (result : HoverResult) request l c
    (w : World) content :
  files w (abs request) = ok content ->
  formatHoverResult path (Some result) request l c w
  = (ok (ok {| message :=
                 lit "Hover information" ++ locationText request l c;
               hover := Some
                 {| hover_contents := formatHoverContents (contents result);
                    hover_range := Some
                      match range result with
                      | Some r =>
                          {| range_start := oneBased (range_start r);
                             range_end := oneBased (range_end r) |}
                      | None =>
                          {| range_start := {| line := 1; character := 1 |};
                             range_end :=
                               {| line := List.length (split_lines content);
                                  character :=
                                    List.length
                                      (last (split_lines content) []) |} |}
                      end |} |}), w).
Proof.
  intros Hf.
  unfold formatHoverResult, bind, ret, readFileSync.
  destruct (range result) as [r|].
  - reflexivity.
  - fold (absolutePathOf path request). rewrite Hf.
    rewrite lastLineLength_last. reflexivity.
Qed.


(** X3: errors of the server.  When [openDocument] throws, the error is
    returned, the delay is not awaited and no hover query is made; when
    the hover query is rejected, its error is returned after the three
    calls. *)
Theorem getHover_server_errors (request : GetHoverRequest) (w : World)
    (content : jsstring) (l c : nat) :
  resolves request w content l c ->
  (forall e s1,
      client_openDocument (uri request) content (server w) = (err e, s1) ->
      fst (run_getHover request w) = err e
      /\ calls (snd (run_getHover request w))
         = calls w ++ [OpenDocument (uri request) content]
      /\ server (snd (run_getHover request w)) = s1)
  /\ (forall e s1 s2,
        client_openDocument (uri request) content (server w) = (ok tt, s1) ->
        client_getHover (uri request) {| line := l; character := c |} s1
        = (err e, s2) ->
        fst (run_getHover request w) = err e
        /\ calls (snd (run_getHover request w))
           = calls w ++ [OpenDocument (uri request) content; Delay 1000;
                         GetHover (uri request)
                           {| line := l; character := c |}]
        /\ server (snd (run_getHover request w)) = s2).
Proof.
  intros HR.
  rewrite (getHover_resolved client_openDocument client_getHover HR).
  unfold try_catch, queryServer, bind, openDocument, delay, getHover_call,
    on_server. simpl.
  split.
  - intros e s1 Ho. rewrite Ho. simpl. auto.
  - intros e s1 s2 Ho Hh. rewrite Ho. simpl. rewrite Hh. simpl.
    rewrite <- !app_assoc. simpl. auto.
Qed.

(** X4: only the position counts.  Two requests for the same file and
    target that resolve to the same position, one with a line and one
    without, or with different line descriptions, have the same
    outcome. *)
Theorem getHover_same_position (r1 r2 : GetHoverRequest) (w : World)
    (content : jsstring) (l c : nat) :
  root r1 = root r2 -> filePath r1 = filePath r2 -> target r1 = target r2 ->
  resolves r1 w content l c ->
  resolves r2 w content l c ->
  run_getHover r1 w = run_getHover r2 w.
Proof.
  intros Hroot Hfile Htarget H1 H2.
  rewrite (getHover_resolved client_openDocument client_getHover H1).
  rewrite (getHover_resolved client_openDocument client_getHover H2).
  destruct r1 as [root1 file1 line1 target1].
  destruct r2 as [root2 file2 line2 target2].
  simpl in Hroot, Hfile, Htarget. subst root2 file2 target2.
  reflexivity.
Qed.

(** X5: the fallback range of a text that is empty or ends with a
    newline.  Its last line is empty, so the range ends at character 0,
    on line [1 + the number of newlines]: an end that lies before the
    start (1, 1) when the text is empty. *)
Theorem formatHoverResult_fallback_edge (result : HoverResult)
    (request : GetHoverRequest) (l c : nat) (w : World) (text : jsstring) :
  range result = None ->
  files w (abs request) = ok text ->
  text = [] \/ (exists t, text = t ++ [LF]) ->
  formatHoverResult path (Some result) request l c w
  = (ok (ok {| message :=
                 lit "Hover information" ++ locationText request l c;
               hover := Some
                 {| hover_contents := formatHoverContents (contents result);
                    hover_range := Some
                      {| range_start := {| line := 1; character := 1 |};
                         range_end :=
                           {| line := S (countLF text); character := 0 |}
                      |} |} |}), w).
Proof.
  intros Hr Hf Hend.
  rewrite (formatHoverResult_answer result request l c w Hf), Hr.
  rewrite split_lines_length.
  replace (List.length (last (split_lines text) [])) with 0; [reflexivity|].
  destruct Hend as [-> | [t ->]]; [reflexivity|].
  rewrite split_lines_last_empty. reflexivity.
Qed.

(** X6: what the caller of the hover tool receives.  Whenever
    [getHover] returns a success, the text is its message alone when
    the hover is null, and the message, a blank line and the hover
    contents otherwise, with nothing of the range; so a null answer
    gives the [No hover information ...] message and a hover with a
    range gives the [Hover information ...] message, a blank line and
    the normalized contents.  A failure is thrown with the text of the
    error, and the tool adds no effect of its own. *)
Theorem lspGetHoverTool_execute_text (args : GetHoverRequest) (w : World) :
  (forall value w',
      run_getHover args w = (ok value, w') ->
      run_execute args w
      = (ok match hover value with
            | Some h => message value ++ [LF; LF] ++ hover_contents h
            | None => message value
            end, w'))
  /\ (forall content l c s1 s2,
        resolves args w content l c ->
        client_openDocument (uri args) content (server w) = (ok tt, s1) ->
        client_getHover (uri args) {| line := l; character := c |} s1
        = (ok None, s2) ->
        fst (run_execute args w)
        = ok (lit "No hover information available for " ++ [DQUOTE]
                ++ target args ++ [DQUOTE] ++ lit " at " ++ filePath args
                ++ lit ":" ++ String_of_nat (l + 1) ++ lit ":"
                ++ String_of_nat (c + 1)))
  /\ (forall content l c s1 s2 result r,
        resolves args w content l c ->
        client_openDocument (uri args) content (server w) = (ok tt, s1) ->
        client_getHover (uri args) {| line := l; character := c |} s1
        = (ok (Some result), s2) ->
        range result = Some r ->
        fst (run_execute args w)
        = ok ((lit "Hover information for " ++ [DQUOTE] ++ target args
                 ++ [DQUOTE] ++ lit " at " ++ filePath args ++ lit ":"
                 ++ String_of_nat (l + 1) ++ lit ":"
                 ++ String_of_nat (c + 1))
                ++ [LF; LF] ++ formatHoverContents (contents result)))
  /\ (forall e,
        fst (run_getHover args w) = err e ->
        fst (run_execute args w) = err e)
  /\ snd (run_execute args w) = snd (run_getHover args w).
Proof.
  split; [|split; [|split; [|split]]].
  - intros value w' H. unfold lspGetHoverTool_execute. rewrite H.
    destruct (hover value); reflexivity.
  - intros content l c s1 s2 HR Ho Hh.
    unfold lspGetHoverTool_execute.
    rewrite (getHover_resolved client_openDocument client_getHover HR).
    unfold try_catch, queryServer, bind, openDocument, delay, getHover_call,
      on_server. simpl.
    rewrite Ho. simpl. rewrite Hh. reflexivity.
  - intros content l c s1 s2 result r HR Ho Hh Hr.
    unfold lspGetHoverTool_execute.
    rewrite (getHover_resolved client_openDocument client_getHover HR).
    unfold try_catch, queryServer, bind, openDocument, delay, getHover_call,
      on_server. simpl.
    rewrite Ho. simpl. rewrite Hh. simpl.
    unfold formatHoverResult, bind, ret. rewrite Hr. reflexivity.
  - intros e H. unfold lspGetHoverTool_execute.
    destruct (run_getHover args w) as [[v|e'] w']; simpl in H;
      [discriminate | injection H as ->; reflexivity].
  - unfold lspGetHoverTool_execute.
    destruct (run_getHover args w) as [[v|e'] w']; reflexivity.
Qed.

End HoverFurther.

(* ================================================================== *)
(** ** The import pattern: what a match is *)
(* ================================================================== *)

Lemma search_matchHere (s importPath : jsstring) (pos e : nat) :
  search s pos = Some (importPath, e) ->
  exists j len,
    j <= List.length s /\ matchHere (skipn j s) = Some (importPath, len).
Proof.
  revert pos; induction s as [|c s IH]; intros pos.
  - cbn. discriminate.
  - cbn [search]. destruct (matchHere (c :: s)) as [[p len]|] eqn:Hm.
    + intros H; injection H as <- _. exists 0, len. split; [simpl; lia|].
      exact Hm.
    + intros H. destruct (IH _ H) as (j & len & Hj & Hm').
      exists (S j), len. split; [simpl; lia | exact Hm'].
Qed.

Lemma exec_matchHere (line importPath : jsstring) (lastIndex e : nat) :
  exec line lastIndex = (Some importPath, e) ->
  exists k len,
    k <= List.length line
    /\ matchHere (skipn k line) = Some (importPath, len).
Proof.
  unfold exec.
  destruct (Nat.ltb_spec (List.length line) lastIndex) as [Hlt|Hle];
    [discriminate|].
  destruct (search (skipn lastIndex line) lastIndex) as [[p e']|] eqn:Hs;
    [|discriminate].
  intros H; injection H as <- _.
  destruct (search_matchHere _ _ Hs) as (j & len & Hj & Hm).
  rewrite length_skipn in Hj. rewrite skipn_skipn in Hm.
  exists (j + lastIndex), len. split; [lia | exact Hm].
Qed.

Lemma execLoop_matchHere (fuel : nat) (line : jsstring) (lastIndex : nat)
    (matches : list jsstring) (importPath : jsstring) :
  In importPath
    (fst (execLoop fuel (fun p => [p]) line lastIndex matches)) ->
  In importPath matches
  \/ exists k len,
      k <= List.length line
      /\ matchHere (skipn k line) = Some (importPath, len).
Proof.
  revert lastIndex matches; induction fuel as [|fuel IH];
    intros lastIndex matches; simpl; [auto|].
  destruct (exec line lastIndex) as [[p|] e] eqn:E; simpl; [|auto].
  intros H. destruct (IH _ _ H) as [Hin | Hm]; [|auto].
  apply in_app_or in Hin. destruct Hin as [Hin | [<- | []]]; [auto|].
  right. exact (exec_matchHere _ _ E).
Qed.

(** Every import path of a line is the capture of a match of the
    pattern somewhere in the line. *)
Lemma importPaths_pattern (line importPath : jsstring) :
  In importPath (importPaths line) ->
  exists k len, PatternMatch (skipn k line) importPath len.
Proof.
  unfold importPaths. intros H.
  destruct (execLoop_matchHere _ _ _ _ _ H) as [[] | (k & len & _ & Hm)].
  exists k, len. apply matchHere_sound. exact Hm.
Qed.

Lemma forallb_notQuote_spec (p : jsstring) :
  forallb notQuote p = true <->
  ~ In APOSTROPHE p /\ ~ In DQUOTE p /\ ~ In BACKTICK p.
Proof.
  induction p as [|c p IH]; simpl; [tauto|].
  rewrite andb_true_iff, IH. unfold notQuote, isQuote.
  rewrite negb_true_iff, !orb_false_iff, !N.eqb_neq.
  intuition congruence.
Qed.

(* ================================================================== *)
(** ** The move-file tool: what the report holds *)
(* ================================================================== *)

Section MoveReportFurther.

Variable path : PathApi.

(** An import path of the loop stands in a line that holds a keyword. *)
Lemma importPaths_keyword (line importPath : jsstring) :
  In importPath (importPaths line) ->
  exists kw,
    In kw [lit "import"; lit "from"; lit "require"]
    /\ includes line kw = true.
Proof.
  intros H. destruct (importPaths_pattern _ _ H) as (k & len & HP).
  destruct HP as [kw ws lp rp rest q1 q2 Hkw _ _ _ _ _ _ _ Hs _].
  exists kw. split; [exact Hkw|]. apply includes_iff.
  exists (firstn k line),
    (ws ++ lp ++ [q1] ++ importPath ++ [q2] ++ rp ++ rest).
  rewrite <- Hs. symmetry. apply firstn_skipn.
Qed.

(** An import path of the loop occurs in its line, so [indexOf] finds
    its first occurrence. *)
Lemma importPaths_first_occurrence (line importPath : jsstring) :
  In importPath (importPaths line) ->
  exists before after,
    line = before ++ importPath ++ after
    /\ indexOf line importPath = Some (List.length before).
Proof.
  intros H. destruct (importPaths_pattern _ _ H) as (k & len & HP).
  destruct HP as [kw ws lp rp rest q1 q2 _ _ _ _ _ _ _ _ Hs _].
  assert (E : includes line importPath = true).
  { apply includes_iff.
    exists (firstn k line ++ kw ++ ws ++ lp ++ [q1]), ([q2] ++ rp ++ rest).
    rewrite <- (firstn_skipn k line) at 1. rewrite Hs.
    repeat (rewrite <- app_assoc; simpl). reflexivity. }
  unfold includes in E.
  destruct (indexOf line importPath) as [i|] eqn:Ei; [|discriminate].
  destruct (indexOf_some _ _ Ei) as (a & b & Hab & Hlen).
  exists a, b. rewrite Hlen. auto.
Qed.

(** X7: the import paths that the loop visits.  Each is non-empty, holds
    none of the three quote characters and stands in the line between
    two quote characters (not necessarily the same one), in a line that
    holds one of the words [import], [from], [require]; so
    [line.replace] always finds it, and replaces its first occurrence
    in the line. *)
Theorem importPaths_occur (line importPath : jsstring) :
  In importPath (importPaths line) ->
  importPath <> []
  /\ (~ In APOSTROPHE importPath /\ ~ In DQUOTE importPath
      /\ ~ In BACKTICK importPath)
  /\ (exists kw q1 q2,
        In kw [lit "import"; lit "from"; lit "require"]
        /\ includes line kw = true
        /\ isQuote q1 = true /\ isQuote q2 = true
        /\ includes line ([q1] ++ importPath ++ [q2]) = true)
  /\ (exists i before after,
        indexOf line importPath = Some i
        /\ line = before ++ importPath ++ after
        /\ List.length before = i
        /\ forall replacement,
            replace line importPath replacement
            = before
                ++ getSubstitution importPath before after replacement
                ++ after).
Proof.
  intros H. destruct (importPaths_pattern _ _ H) as (k & len & HP).
  destruct HP as [kw ws lp rp rest q1 q2 Hkw Hws Hlp Q1 Hne Hp Q2 Hrp Hs _].
  split; [exact Hne|]. split; [apply forallb_notQuote_spec; exact Hp|].
  assert (Hline : line = firstn k line ++ skipn k line)
    by (symmetry; apply firstn_skipn).
  rewrite Hs in Hline.
  split.
  - exists kw, q1, q2. split; [exact Hkw|].
    split; [|split; [exact Q1|split; [exact Q2|]]]; apply includes_iff.
    + exists (firstn k line),
        (ws ++ lp ++ [q1] ++ importPath ++ [q2] ++ rp ++ rest).
      exact Hline.
    + exists (firstn k line ++ kw ++ ws ++ lp), (rp ++ rest).
      rewrite Hline at 1. repeat (rewrite <- app_assoc; simpl).
      reflexivity.
  - assert (E : exists a b, line = a ++ importPath ++ b).
    { exists (firstn k line ++ kw ++ ws ++ lp ++ [q1]),
        ([q2] ++ rp ++ rest).
      rewrite Hline at 1. repeat (rewrite <- app_assoc; simpl).
      reflexivity. }
    apply includes_iff in E. unfold includes in E.
    destruct (indexOf line importPath) as [i|] eqn:Ei; [|discriminate].
    destruct (indexOf_some _ _ Ei) as (a & b & Hab & Hlen).
    exists i, a, b. repeat split; auto.
    intros replacement. unfold replace. rewrite Ei. cbv zeta.
    rewrite <- Hlen.
    replace (firstn (List.length a) line) with a
      by (rewrite Hab; symmetry; apply firstn_exact).
    replace (skipn (List.length a + List.length importPath) line) with b
      by (rewrite Hab, app_assoc, <- length_app; symmetry;
          apply skipn_exact).
    reflexivity.
Qed.

Variable readFile : FileReader.

Local Abbreviation analyze := (analyzeImportChanges path readFile).
Local Abbreviation format := (formatMoveFileResult path readFile).

(** X8: a text that holds none of the words [import], [from] and
    [require] has no match on any line, and its file gets the
    placeholder. *)
Theorem analyzeImportChanges_no_keyword
    (file oldPath newPath content : jsstring) :
  readFile file = ok content ->
  includes content (lit "import") = false ->
  includes content (lit "from") = false ->
  includes content (lit "require") = false ->
  (forall line, In line (split_lines content) -> importPaths line = [])
  /\ analyze file oldPath newPath = ok [lit "    Import statements updated"].
Proof.
  intros Hf Hi Hfr Hr.
  assert (N : forall line, In line (split_lines content) ->
                           importPaths line = []).
  { intros line Hl.
    destruct (importPaths line) as [|p ps] eqn:E; [reflexivity|].
    exfalso.
    assert (Hp : In p (importPaths line)) by (rewrite E; left; reflexivity).
    destruct (importPaths_keyword _ _ Hp) as (kw & Hkw & Hinc).
    apply includes_iff in Hinc. destruct Hinc as (a & b & Hline).
    destruct (split_lines_piece _ _ Hl) as (a' & b' & Hc).
    assert (Hc' : includes content kw = true).
    { apply includes_iff. exists (a' ++ a), (b ++ b').
      rewrite Hc, Hline. repeat rewrite <- app_assoc. reflexivity. }
    destruct Hkw as [<-|[<-|[<-|[]]]]; congruence. }
  split; [exact N|].
  unfold analyzeImportChanges. rewrite Hf.
  rewrite scanLines_empty; [reflexivity|].
  intros line importPath lineNum Hl Hp. rewrite (N line Hl) in Hp.
  destruct Hp.
Qed.

(** The fragment that a reported match stands for. *)
Local Abbreviation fragmentOf :=
  (fun (file oldPath : jsstring) (m : ReportedMatch) =>
     diffFragment (rm_lineNum m)
       (reconstructOldLine path file oldPath (rm_line m) (rm_importPath m))
       (rm_line m)).

Lemma StronglySorted_app {A} (R : A -> A -> Prop) (l1 l2 : list A) :
  StronglySorted R l1 -> StronglySorted R l2 ->
  (forall x y, In x l1 -> In y l2 -> R x y) ->
  StronglySorted R (l1 ++ l2).
Proof.
  induction l1 as [|a l1 IH]; intros H1 H2 H; [exact H2|].
  inversion H1 as [|? ? Hs Hf]; subst. simpl. constructor.
  - apply IH; auto. intros x y Hx Hy. apply H; simpl; auto.
  - apply Forall_app. split; [exact Hf|].
    apply Forall_forall. intros y Hy. apply H; simpl; auto.
Qed.

Lemma lineFragments_sound (file oldPath newPath line : jsstring) (n : nat)
    (ps : list jsstring) :
  (forall p, In p ps -> In p (importPaths line)) ->
  exists ms : list ReportedMatch,
    flat_map (matchFragment path file oldPath newPath line n) ps
    = flat_map (fragmentOf file oldPath) ms
    /\ Forall (fun m =>
                 rm_lineNum m = n /\ rm_line m = line
                 /\ In (rm_importPath m) (importPaths line)
                 /\ refersToMovedFile path file newPath (rm_importPath m)
                    = true
                 /\ reconstructOldLine path file oldPath line
                      (rm_importPath m) <> line) ms.
Proof.
  induction ps as [|p ps IH]; intros Hps.
  - exists []. split; [reflexivity | constructor].
  - destruct IH as (ms & E & HF); [intros q Hq; apply Hps; right; exact Hq|].
    simpl flat_map. rewrite E.
    destruct (matchFragment_cases path file oldPath newPath line n p)
      as [(Hr & Hd & ->) | (_ & ->)].
    + exists ({| rm_lineNum := n; rm_importPath := p; rm_line := line |}
               :: ms).
      split; [reflexivity|]. constructor; [|exact HF].
      simpl. repeat split; auto. apply Hps. left. reflexivity.
    + exists ms. split; [reflexivity | exact HF].
Qed.

Lemma scanLines_sound (file oldPath newPath : jsstring)
    (lines : list jsstring) (i : nat) :
  exists ms : list ReportedMatch,
    fst (scanLines path file oldPath newPath lines i 0)
    = flat_map (fragmentOf file oldPath) ms
    /\ Forall (fun m =>
                 i < rm_lineNum m
                 /\ nth_error lines (rm_lineNum m - i - 1) = Some (rm_line m)
                 /\ In (rm_importPath m) (importPaths (rm_line m))
                 /\ refersToMovedFile path file newPath (rm_importPath m)
                    = true
                 /\ reconstructOldLine path file oldPath (rm_line m)
                      (rm_importPath m) <> rm_line m) ms
    /\ StronglySorted (fun a b => rm_lineNum a <= rm_lineNum b) ms.
Proof.
  revert i; induction lines as [|line rest IH]; intros i.
  - exists []. repeat split; constructor.
  - rewrite scanLines_cons. cbv beta. simpl fst.
    destruct (lineFragments_sound file oldPath newPath line (i + 1)
                (importPaths line) (fun p H => H)) as (m1 & E1 & F1).
    destruct (IH (S i)) as (m2 & E2 & F2 & S2).
    exists (m1 ++ m2). rewrite E1, E2, flat_map_app.
    split; [reflexivity|]. split; [|].
    + apply Forall_app. split.
      * eapply Forall_impl; [|exact F1].
        intros m (Hn & Hl & Hp & Hr & Hd). rewrite Hn, Hl.
        replace (i + 1 - i - 1) with 0 by lia. simpl.
        repeat split; auto. lia.
      * eapply Forall_impl; [|exact F2].
        intros m (Hn & Hl & Hp & Hr & Hd).
        replace (rm_lineNum m - i - 1) with (S (rm_lineNum m - S i - 1))
          by lia.
        simpl. repeat split; auto. lia.
    + apply StronglySorted_app; [|exact S2|].
      * clear -F1. induction m1 as [|m ms IHm]; constructor;
          inversion F1 as [|? ? (Hn & _) Hms]; subst.
        -- apply IHm. exact Hms.
        -- apply Forall_forall. intros y Hy.
           rewrite Forall_forall in Hms. destruct (Hms y Hy) as (Hy' & _).
           lia.
      * intros x y Hx Hy.
        rewrite Forall_forall in F1, F2.
        destruct (F1 x Hx) as (Hnx & _). destruct (F2 y Hy) as (Hny & _).
        lia.
Qed.

(** X9: every fragment of the analysis comes from the file.  The list
    returned is the placeholder alone, or the fragments of a non-empty
    list of matches in the order of the lines, each of them the header
    with the one-based number of a line of the text, the reconstructed
    line (different from that line) and that line, for an import path
    found on that line that refers to the moved file. *)
Theorem analyzeImportChanges_sound
    (file oldPath newPath content : jsstring) :
  readFile file = ok content ->
  analyze file oldPath newPath = ok [lit "    Import statements updated"]
  \/ exists ms : list ReportedMatch,
      ms <> []
      /\ analyze file oldPath newPath
         = ok (flat_map
                 (fun m =>
                    [ lit "    @@ -" ++ String_of_nat (rm_lineNum m)
                        ++ lit ",1 +" ++ String_of_nat (rm_lineNum m)
                        ++ lit ",1 @@";
                      lit "    - "
                        ++ reconstructOldLine path file oldPath (rm_line m)
                             (rm_importPath m);
                      lit "    + " ++ rm_line m ]) ms)
      /\ Forall (fun m =>
                   1 <= rm_lineNum m
                   /\ nth_error (split_lines content) (rm_lineNum m - 1)
                      = Some (rm_line m)
                   /\ In (rm_importPath m) (importPaths (rm_line m))
                   /\ refersToMovedFile path file newPath (rm_importPath m)
                      = true
                   /\ reconstructOldLine path file oldPath (rm_line m)
                        (rm_importPath m) <> rm_line m) ms
      /\ StronglySorted (fun a b => rm_lineNum a <= rm_lineNum b) ms.
Proof.
  intros Hf. unfold analyzeImportChanges. rewrite Hf. cbv zeta.
  destruct (scanLines_sound file oldPath newPath (split_lines content) 0)
    as (ms & E & F & S).
  rewrite E.
  destruct ms as [|m ms]; [left; reflexivity|].
  right. exists (m :: ms). split; [discriminate|]. split; [|split].
  - reflexivity.
  - eapply Forall_impl; [|exact F].
    intros x (Hn & Hl & Hp & Hr & Hd).
    replace (rm_lineNum x - 1) with (rm_lineNum x - 0 - 1) by lia.
    repeat split; auto.
  - exact S.
Qed.

(** X10: the lines are analysed one by one.  The position that the
    pattern object keeps between calls is back at 0 at the end of every
    line, so the fragments of a sequence of lines are those of its
    first part followed by those of the rest, numbered on. *)
Theorem scanLines_app (file oldPath newPath : jsstring)
    (lines1 lines2 : list jsstring) (i : nat) :
  scanLines path file oldPath newPath (lines1 ++ lines2) i 0
  = (fst (scanLines path file oldPath newPath lines1 i 0)
       ++ fst (scanLines path file oldPath newPath lines2
                 (i + List.length lines1) 0),
     0).
Proof.
  revert i; induction lines1 as [|line rest IH]; intros i.
  - cbn [app List.length]. rewrite Nat.add_0_r.
    pose proof (scanLines_lastIndex path file oldPath newPath lines2 i) as L.
    destruct (scanLines path file oldPath newPath lines2 i 0) as [ms li].
    simpl in L |- *. rewrite L. reflexivity.
  - change ((line :: rest) ++ lines2) with (line :: rest ++ lines2).
    rewrite !scanLines_cons. rewrite IH. cbn [fst snd]. cbv beta.
    replace (S i + List.length rest) with (i + List.length (line :: rest))
      by (cbn [List.length]; lia).
    rewrite <- app_assoc. reflexivity.
Qed.

(** X11: the report reads the changed files other than the moved one,
    and no other file: two readers that agree on these give the same
    report. *)
Theorem formatMoveFileResult_reads (readFile' : FileReader)
    (result : MoveFileResult) (oldPath newPath root : jsstring) :
  (forall file,
      In file (changedFiles result) -> file <> oldPath ->
      readFile file = readFile' file) ->
  format result oldPath newPath root
  = formatMoveFileResult path readFile' result oldPath newPath root.
Proof.
  intros H. unfold formatMoveFileResult. cbv zeta.
  replace (map (fileResult path readFile oldPath newPath root
                  (path_relative path root oldPath)
                  (path_relative path root newPath)) (changedFiles result))
    with (map (fileResult path readFile' oldPath newPath root
                 (path_relative path root oldPath)
                 (path_relative path root newPath)) (changedFiles result));
    [reflexivity|].
  apply map_ext_in. intros file Hin. unfold fileResult.
  destruct (JS.eqb file oldPath) eqn:E; [reflexivity|].
  apply eqb_false in E. unfold analyzeImportChanges.
  rewrite (H file Hin E). reflexivity.
Qed.

Lemma getSubstitution_plain (matched before after repl : jsstring) :
  ~ In DOLLAR repl -> getSubstitution matched before after repl = repl.
Proof.
  induction repl as [|c r IH]; intros H; [reflexivity|].
  cbn [getSubstitution].
  destruct (N.eqb_spec c DOLLAR) as [->|_].
  - exfalso. apply H. left. reflexivity.
  - rewrite IH; [reflexivity|]. intros Hin. apply H. right. exact Hin.
Qed.

(** [replace] where the pattern is first found at a known place and the
    replacement holds no dollar sign. *)
Lemma replace_at (head pattern tail repl : jsstring) :
  indexOf (head ++ pattern ++ tail) pattern = Some (List.length head) ->
  ~ In DOLLAR repl ->
  replace (head ++ pattern ++ tail) pattern repl = head ++ repl ++ tail.
Proof.
  intros Hi Hd. unfold replace. rewrite Hi. cbv zeta.
  rewrite getSubstitution_plain by exact Hd.
  rewrite firstn_exact.
  rewrite (app_assoc head pattern tail), <- length_app, skipn_exact.
  reflexivity.
Qed.

Lemma backslashes_to_slashes_no_dollar (s : jsstring) :
  ~ In DOLLAR s -> ~ In DOLLAR (backslashes_to_slashes s).
Proof.
  unfold backslashes_to_slashes. intros H Hin.
  apply in_map_iff in Hin. destruct Hin as (c & Hc & Hin).
  destruct (N.eqb c BACKSLASH); [discriminate|].
  subst c. exact (H Hin).
Qed.

Lemma backslashes_to_slashes_no_backslash (s : jsstring) :
  ~ In BACKSLASH (backslashes_to_slashes s).
Proof.
  unfold backslashes_to_slashes. intros Hin.
  apply in_map_iff in Hin. destruct Hin as (c & Hc & _).
  destruct (N.eqb c BACKSLASH) eqn:Ec; [discriminate|].
  apply N.eqb_neq in Ec. congruence.
Qed.

(** X12: the text put in place of the import path.  When the old
    relative path holds no dollar sign, the reconstructed line is the
    line with the first occurrence of the import path replaced by a
    text that starts with a dot and holds no backslash. *)
Theorem reconstructOldLine_specifier
    (file oldPath line importPath : jsstring) :
  In importPath (importPaths line) ->
  ~ In DOLLAR (path_relative path (path_dirname path file) oldPath) ->
  exists before after specifier,
    line = before ++ importPath ++ after
    /\ indexOf line importPath = Some (List.length before)
    /\ reconstructOldLine path file oldPath line importPath
       = before ++ specifier ++ after
    /\ startsWith specifier (lit ".") = true
    /\ ~ In BACKSLASH specifier.
Proof.
  intros Hin Hd.
  destruct (importPaths_first_occurrence _ _ Hin)
    as (before & after & Hline & Hi).
  unfold reconstructOldLine. cbv zeta.
  set (rel := backslashes_to_slashes
                (path_relative path (path_dirname path file) oldPath)).
  assert (NB : ~ In BACKSLASH rel)
    by apply backslashes_to_slashes_no_backslash.
  assert (ND : ~ In DOLLAR rel)
    by (apply backslashes_to_slashes_no_dollar; exact Hd).
  exists before, after. subst line.
  destruct (startsWith rel (lit ".")) eqn:E.
  - exists rel. rewrite (@replace_at _ _ _ _ Hi ND). auto.
  - assert (ND' : ~ In DOLLAR (lit "./" ++ rel))
      by (intros [H|[H|H]]; [discriminate | discriminate | exact (ND H)]).
    exists (lit "./" ++ rel). rewrite (@replace_at _ _ _ _ Hi ND').
    repeat split; auto.
    intros [H|[H|H]]; [discriminate | discriminate | exact (NB H)].
Qed.



Lemma String_of_nat_no_LF (n : nat) : ~ In LF (String_of_nat n).
Proof.
  unfold String_of_nat. generalize (Nat.to_uint n). intros d.
  induction d; unfold lit in *; simpl;
    try (intros [H|H]; [discriminate | exact (IHd H)]).
  intros [].
Qed.

(** X13: the head of the report.  When the message of the move holds no
    newline, the first three lines of the report are the summary line,
    the empty line and [Changes:]. *)
Theorem formatMoveFileResult_head_lines
    (result : MoveFileResult) (oldPath newPath root : jsstring) :
  ~ In LF (move_message result) ->
  exists report,
    format result oldPath newPath root = ok report
    /\ firstn 3 (split_lines report)
       = [ move_message result ++ lit ". Updated imports in "
             ++ String_of_nat (List.length (changedFiles result))
             ++ lit " file(s).";
           [];
           lit "Changes:" ].
Proof.
  intros Hm.
  assert (HB : exists blocks : list (list jsstring),
             format result oldPath newPath root
             = ok (join [LF]
                     ([ move_message result ++ lit ". Updated imports in "
                          ++ String_of_nat (List.length (changedFiles result))
                          ++ lit " file(s).";
                        [];
                        lit "Changes:" ]
                        ++ concat blocks))).
  { unfold formatMoveFileResult. cbv zeta.
    destruct (@collectResults_blocks path readFile oldPath newPath root
                (changedFiles result)
                [move_message result ++ lit ". Updated imports in "
                   ++ String_of_nat (List.length (changedFiles result))
                   ++ lit " file(s)."; []; lit "Changes:"])
      as (blocks & EC & _).
    exists blocks. rewrite EC. reflexivity. }
  destruct HB as (blocks & E).
  eexists. split; [exact E|].
  set (summary := move_message result ++ lit ". Updated imports in "
                    ++ String_of_nat (List.length (changedFiles result))
                    ++ lit " file(s).").
  assert (Hs : ~ In LF summary).
  { unfold summary. intros H.
    apply in_app_or in H. destruct H as [H|H]; [exact (Hm H)|].
    apply in_app_or in H. destruct H as [H|H].
    - simpl in H. intuition discriminate.
    - apply in_app_or in H. destruct H as [H|H].
      + exact (String_of_nat_no_LF _ H).
      + simpl in H. intuition discriminate. }
  cbn [app]. rewrite join_cons.
  change (summary ++ [LF] ++ join [LF] ([] :: lit "Changes:" :: concat blocks))
    with (summary ++ LF :: join [LF] ([] :: lit "Changes:" :: concat blocks)).
  rewrite split_lines_app by exact Hs.
  rewrite join_cons.
  change ([] ++ [LF] ++ join [LF] (lit "Changes:" :: concat blocks))
    with ([] ++ LF :: join [LF] (lit "Changes:" :: concat blocks)).
  rewrite split_lines_app by (intros []).
  destruct (concat blocks) as [|b bs].
  - reflexivity.
  - rewrite join_cons.
    change (lit "Changes:" ++ [LF] ++ join [LF] (b :: bs))
      with (lit "Changes:" ++ LF :: join [LF] (b :: bs)).
    rewrite split_lines_app; [reflexivity|].
    simpl. intuition discriminate.
Qed.

End MoveReportFurther.

(* ================================================================== *)
(** ** The move-file tool: the calls of a move *)
(* ================================================================== *)

Section MoveToolFurther.

Variable path : PathApi.
Variables Project Memory Disk : Type.
Variable project_find : jsstring -> M Memory Project.
Variable project_refresh : jsstring -> Disk -> M Memory unit.
Variable project_move :
  Project -> MoveOptions -> M Memory (Result MoveFileResult jsstring).
Variable project_save : Project -> Memory -> M Disk unit.
Variable readDisk : Disk -> FileReader.

Local Abbreviation World := (MoveWorld Memory Disk).
Local Abbreviation run_handleMoveFile :=
  (handleMoveFile path project_find project_refresh project_move
     project_save).
Local Abbreviation run_execute :=
  (moveFileTool_execute path project_find project_refresh project_move
     project_save readDisk).
Local Abbreviation absoluteOld :=
  (fun request : MoveRequest =>
     path_join path (move_root request) (oldPath request)).
Local Abbreviation absoluteNew :=
  (fun request : MoveRequest =>
     path_join path (move_root request) (newPath request)).
Local Abbreviation optionsOf :=
  (fun request : MoveRequest =>
     {| oldFilename := absoluteOld request;
        newFilename := absoluteNew request;
        opt_overwrite := overwrite request |}).

Ltac move_steps :=
  unfold handleMoveFile, bind, findProjectForFile,
    getOrCreateSourceFileWithRefresh, moveFile, save, in_memory, ret.

(** X14: a move that succeeds.  The project is found, the source file
    loaded, the move primitive called with both paths joined to the
    root and the caller's [overwrite], and the project saved, in this
    order and once each; the value returned is the one of the move
    primitive and the disk is what [save] wrote from the memory as the
    move left it. *)
Theorem handleMoveFile_success (request : MoveRequest) (w : World)
    (project : Project) (m1 m2 m3 : Memory) (value : MoveFileResult)
    (d : Disk) :
  project_find (absoluteOld request) (memory w) = (ok project, m1) ->
  project_refresh (absoluteOld request) (disk w) m1 = (ok tt, m2) ->
  project_move project (optionsOf request) m2 = (ok (ok value), m3) ->
  project_save project m3 (disk w) = (ok tt, d) ->
  run_handleMoveFile request w
  = (ok (ok value),
     {| memory := m3; disk := d;
        project_calls :=
          project_calls w
            ++ [FindProjectForFile (absoluteOld request);
                GetOrCreateSourceFileWithRefresh (absoluteOld request);
                MoveFile (optionsOf request);
                Save] |}).
Proof.
  intros Hf Hr Hm Hs. move_steps. cbv beta.
  rewrite Hf. simpl. rewrite Hr. simpl. rewrite Hm. simpl. rewrite Hs.
  simpl. rewrite <- !app_assoc. reflexivity.
Qed.

(** X15: when a collaborator throws.  A throw of the project lookup
    rejects the call before anything else is asked; a throw of the move
    primitive rejects it without a save; a rejected save rejects the
    call although the move was made in memory, and the disk is then
    what the failed save left. *)
Theorem handleMoveFile_rejections (request : MoveRequest) (w : World) :
  (forall e m1,
      project_find (absoluteOld request) (memory w) = (err e, m1) ->
      run_handleMoveFile request w
      = (err e,
         {| memory := m1; disk := disk w;
            project_calls :=
              project_calls w
                ++ [FindProjectForFile (absoluteOld request)] |}))
  /\ (forall project m1 m2 e m3,
        project_find (absoluteOld request) (memory w) = (ok project, m1) ->
        project_refresh (absoluteOld request) (disk w) m1 = (ok tt, m2) ->
        project_move project (optionsOf request) m2 = (err e, m3) ->
        run_handleMoveFile request w
        = (err e,
           {| memory := m3; disk := disk w;
              project_calls :=
                project_calls w
                  ++ [FindProjectForFile (absoluteOld request);
                      GetOrCreateSourceFileWithRefresh (absoluteOld request);
                      MoveFile (optionsOf request)] |}))
  /\ (forall project m1 m2 value m3 e d,
        project_find (absoluteOld request) (memory w) = (ok project, m1) ->
        project_refresh (absoluteOld request) (disk w) m1 = (ok tt, m2) ->
        project_move project (optionsOf request) m2 = (ok (ok value), m3) ->
        project_save project m3 (disk w) = (err e, d) ->
        run_handleMoveFile request w
        = (err e,
           {| memory := m3; disk := d;
              project_calls :=
                project_calls w
                  ++ [FindProjectForFile (absoluteOld request);
                      GetOrCreateSourceFileWithRefresh (absoluteOld request);
                      MoveFile (optionsOf request);
                      Save] |})).
Proof.
  repeat split.
  - intros e m1 Hf. move_steps. cbv beta. rewrite Hf. reflexivity.
  - intros project m1 m2 e m3 Hf Hr Hm. move_steps. cbv beta.
    rewrite Hf. simpl. rewrite Hr. simpl. rewrite Hm. simpl.
    rewrite <- !app_assoc. reflexivity.
  - intros project m1 m2 value m3 e d Hf Hr Hm Hs. move_steps. cbv beta.
    rewrite Hf. simpl. rewrite Hr. simpl. rewrite Hm. simpl. rewrite Hs.
    simpl. rewrite <- !app_assoc. reflexivity.
Qed.

(** X16: the order of the calls.  Whatever the collaborators answer, the
    calls of one invocation are the first [n] of: find the project,
    load the source file, move, save, with [n] at least 1; the disk is
    as it was unless all four were made; a success value means all
    four, a returned error means two or three. *)
Theorem handleMoveFile_call_order (request : MoveRequest) (w : World) :
  exists n : nat,
    1 <= n <= 4
    /\ project_calls (snd (run_handleMoveFile request w))
       = project_calls w
           ++ firstn n
                [FindProjectForFile (absoluteOld request);
                 GetOrCreateSourceFileWithRefresh (absoluteOld request);
                 MoveFile (optionsOf request);
                 Save]
    /\ (n < 4 -> disk (snd (run_handleMoveFile request w)) = disk w)
    /\ (forall value,
          fst (run_handleMoveFile request w) = ok (ok value) -> n = 4)
    /\ (forall error,
          fst (run_handleMoveFile request w) = ok (err error) ->
          n = 2 \/ n = 3).
Proof.
  move_steps. cbv beta.
  destruct (project_find _ (memory w)) as [[project|e0] m1]; simpl.
  - destruct (project_refresh _ (disk w) m1) as [[[]|e1] m2]; simpl.
    + destruct (project_move project _ m2) as [[[value|e2]|e2] m3]; simpl.
      * destruct (project_save project m3 (disk w)) as [[[]|e3] d]; simpl;
          exists 4; rewrite <- !app_assoc; simpl;
          repeat split; auto; try lia; intros; discriminate.
      * exists 3. rewrite <- !app_assoc. simpl.
        repeat split; auto; try lia; intros; discriminate.
      * exists 3. rewrite <- !app_assoc. simpl.
        repeat split; auto; try lia; intros; discriminate.
    + exists 2. rewrite <- !app_assoc. simpl.
      repeat split; auto; try lia; intros; discriminate.
  - exists 1. simpl. repeat split; auto; try lia; intros; discriminate.
Qed.

(** X17: what the caller of the move tool receives.  The tool throws
    exactly when [handleMoveFile] rejects or returns an error, with the
    same text; otherwise it returns the report, formatted from the
    files on disk as the save left them; formatting adds no call and
    changes nothing. *)
Theorem moveFileTool_execute_outcome (args : MoveRequest) (w : World) :
  snd (run_execute args w) = snd (run_handleMoveFile args w)
  /\ (forall e,
        fst (run_execute args w) = err e
        <-> fst (run_handleMoveFile args w) = err e
            \/ fst (run_handleMoveFile args w) = ok (err e))
  /\ (forall value,
        fst (run_handleMoveFile args w) = ok (ok value) ->
        exists report,
          fst (run_execute args w) = ok report
          /\ formatMoveFileResult path
               (readDisk (disk (snd (run_handleMoveFile args w)))) value
               (absoluteOld args) (absoluteNew args) (move_root args)
             = ok report).
Proof.
  unfold moveFileTool_execute, bind, throw.
  destruct (run_handleMoveFile args w) as [[[value|e]|e] w'] eqn:E; simpl.
  - destruct (formatMoveFileResult_report_aux path (readDisk (disk w')) value
                (absoluteOld args) (absoluteNew args) (move_root args))
      as (report & ER).
    rewrite ER. simpl. repeat split.
    + discriminate.
    + intros [H|H]; discriminate.
    + intros v Hv. injection Hv as <-. eauto.
  - repeat split.
    + intros H. injection H as ->. auto.
    + intros [H|H]; [discriminate | injection H as ->; reflexivity].
    + intros v Hv. discriminate.
  - repeat split.
    + intros H. injection H as ->. auto.
    + intros [H|H]; [injection H as ->; reflexivity | discriminate].
    + intros v Hv. discriminate.
Qed.

End MoveToolFurther.

(* ================================================================== *)
(** ** The pattern and the hover contents, once more *)
(* ================================================================== *)

(** X18: what the pattern recognizes.  The matcher finds a match with
    the import path [p] at the head of a text exactly when the text
    starts with one of [import], [from], [require], then white space,
    at most one opening parenthesis, a quote character, the non-empty
    [p] without quote characters and a quote character. *)
Theorem matchHere_iff (s p : jsstring) :
  (exists len, matchHere s = Some (p, len))
  <-> (exists kw ws lp q1 q2 rest,
          In kw [lit "import"; lit "from"; lit "require"]
          /\ forallb isWhiteSpace ws = true
          /\ (lp = [] \/ lp = [LPAREN])
          /\ isQuote q1 = true /\ isQuote q2 = true
          /\ p <> [] /\ forallb notQuote p = true
          /\ s = kw ++ ws ++ lp ++ [q1] ++ p ++ [q2] ++ rest).
Proof.
  split.
  - intros [len H]. apply matchHere_sound in H.
    destruct H as [kw ws lp rp rest q1 q2 Hkw Hws Hlp Q1 Hne Hp Q2 Hrp Hs _].
    exists kw, ws, lp, q1, q2, (rp ++ rest). repeat split; auto.
  - intros (kw & ws & lp & q1 & q2 & rest & Hkw & Hws & Hlp & Q1 & Q2 & Hne
            & Hp & Hs).
    destruct (@matchHere_complete s p
                (List.length (kw ++ ws ++ lp ++ [q1] ++ p ++ [q2] ++ [])))
      as (len & H & _); [|eauto].
    apply (@pattern_match _ _ _ kw ws lp [] rest q1 q2); auto.
Qed.

Lemma join_app (sep : jsstring) (a b : list jsstring) :
  a <> [] -> b <> [] ->
  join sep (a ++ b) = join sep a ++ sep ++ join sep b.
Proof.
  induction a as [|x a IH]; intros Ha Hb; [contradiction|].
  destruct a as [|y a].
  - destruct b as [|z b]; [contradiction|]. reflexivity.
  - change ((x :: y :: a) ++ b) with (x :: (y :: a) ++ b).
    change ((y :: a) ++ b) with (y :: a ++ b) at 1.
    rewrite join_cons.
    change (y :: a ++ b) with ((y :: a) ++ b).
    rewrite IH by (discriminate || exact Hb).
    rewrite join_cons, <- !app_assoc. reflexivity.
Qed.

(** X19: arrays of hover fragments.  The empty array gives the empty
    string; the contents of two non-empty arrays put together are the
    contents of each, joined by a newline; and when no fragment value
    holds a newline, the lines of the contents are the fragment values,
    one each. *)
Theorem formatHoverContents_arrays (a b : list MarkedString) :
  formatHoverContents (ContentsArray []) = []
  /\ (a <> [] -> b <> [] ->
      formatHoverContents (ContentsArray (a ++ b))
      = formatHoverContents (ContentsArray a) ++ [LF]
          ++ formatHoverContents (ContentsArray b))
  /\ (a <> [] ->
      Forall (fun m => ~ In LF (fragmentValue m)) a ->
      split_lines (formatHoverContents (ContentsArray a))
      = map fragmentValue a).
Proof.
  split; [reflexivity|]. split.
  - intros Ha Hb. simpl. rewrite map_app.
    apply join_app; destruct a, b; try discriminate; contradiction.
  - intros Ha HF. simpl. apply split_lines_join.
    + destruct a; [contradiction | discriminate].
    + apply Forall_map. exact HF.
Qed.

(* ================================================================== *)
(** ** The further properties on concrete requests *)
(* ================================================================== *)

Import Scenario2.

(** X1 on a target that is not on line 5, a line beyond the file and a
    file that is not there. *)
Lemma getHover_error_text_witness :
  hoverTool None bazOnLine5 hoverWorld
  = (err (lit "Symbol " ++ [DQUOTE] ++ lit "baz" ++ [DQUOTE]
            ++ lit " not found on line 5"), hoverWorld)
  /\ hoverTool None barOnLine99 hoverWorld
     = (err (lit "LineOutOfRange in foo.ts"), hoverWorld)
  /\ hoverTool None bazRequest hoverWorld
     = (err (lit "TargetNotFoundInFile in foo.ts"), hoverWorld)
  /\ hoverTool None missingFileRequest hoverWorld
     = (err (lit "ENOENT: no such file or directory"), hoverWorld)
  /\ hoverTool None barRequest noSessionWorld
     = (err (lit "No active LSP client"), noSessionWorld).
Proof.
  split; [|split; [|split; [|split]]].
  - destruct (getHover_error_text posix client_openDocument
                (client_getHover None) parseLineNumber findSymbolInLine
                findTargetInFile bazOnLine5 hoverWorld) as (_ & _ & H).
    destruct (H fooText eq_refl eq_refl) as (_ & _ & _ & _ & Hs & _).
    exact (Hs (LineNumber 5) 4 _ eq_refl eq_refl eq_refl).
  - destruct (getHover_error_text posix client_openDocument
                (client_getHover None) parseLineNumber findSymbolInLine
                findTargetInFile barOnLine99 hoverWorld) as (_ & _ & H).
    destruct (H fooText eq_refl eq_refl) as (_ & _ & Hl & _).
    exact (Hl (LineNumber 99) _ eq_refl eq_refl).
  - destruct (getHover_error_text posix client_openDocument
                (client_getHover None) parseLineNumber findSymbolInLine
                findTargetInFile bazRequest hoverWorld) as (_ & _ & H).
    destruct (H fooText eq_refl eq_refl) as (Ht & _).
    exact (Ht _ eq_refl eq_refl).
  - destruct (getHover_error_text posix client_openDocument
                (client_getHover None) parseLineNumber findSymbolInLine
                findTargetInFile missingFileRequest hoverWorld)
      as (_ & H & _).
    exact (H _ eq_refl eq_refl).
  - destruct (getHover_error_text posix client_openDocument
                (client_getHover None) parseLineNumber findSymbolInLine
                findTargetInFile barRequest noSessionWorld) as (H & _).
    exact (H _ eq_refl).
Defined.


(** X3 on a client that cannot open documents and on one whose hover
    query is rejected. *)
Lemma getHover_server_errors_witness :
  (fst (getHover posix brokenOpen (client_getHover None) parseLineNumber
          findSymbolInLine findTargetInFile barRequest hoverWorld)
   = err (lit "connection closed")
   /\ calls (snd (getHover posix brokenOpen (client_getHover None)
                    parseLineNumber findSymbolInLine findTargetInFile
                    barRequest hoverWorld))
      = [OpenDocument fooUri fooText])
  /\ (fst (getHover posix client_openDocument rejectingHover parseLineNumber
             findSymbolInLine findTargetInFile barRequest hoverWorld)
      = err (lit "request timed out")
      /\ calls (snd (getHover posix client_openDocument rejectingHover
                       parseLineNumber findSymbolInLine findTargetInFile
                       barRequest hoverWorld))
         = [OpenDocument fooUri fooText; Delay 1000;
            GetHover fooUri {| line := 4; character := 6 |}]).
Proof.
  split.
  - destruct (@getHover_server_errors posix ServerState brokenOpen
                (client_getHover None) parseLineNumber findSymbolInLine
                findTargetInFile barRequest hoverWorld fooText 4 6)
      as [H _]; [apply resolves_in_file; reflexivity|].
    destruct (H (lit "connection closed") [] eq_refl) as (H1 & H2 & _).
    split; [exact H1 | exact H2].
  - destruct (@getHover_server_errors posix ServerState client_openDocument
                rejectingHover parseLineNumber findSymbolInLine
                findTargetInFile barRequest hoverWorld fooText 4 6)
      as [_ H]; [apply resolves_in_file; reflexivity|].
    destruct (H (lit "request timed out") [(fooUri, fooText)]
                [(fooUri, fooText)] eq_refl eq_refl) as (H1 & H2 & _).
    split; [exact H1 | exact H2].
Defined.

(** X4 on [bar] in [foo.ts], asked for with and without the line. *)
Lemma getHover_same_position_witness :
  hoverTool (Some numberHover) barRequest hoverWorld
  = hoverTool (Some numberHover) barOnLine5 hoverWorld.
Proof.
  refine (@getHover_same_position posix ServerState client_openDocument
            (client_getHover (Some numberHover)) parseLineNumber
            findSymbolInLine findTargetInFile barRequest barOnLine5
            hoverWorld fooText 4 6 eq_refl eq_refl eq_refl _ _).
  - apply resolves_in_file; reflexivity.
  - apply (@resolves_on_line posix ServerState parseLineNumber
             findSymbolInLine findTargetInFile barOnLine5 hoverWorld fooText
             4 6 (LineNumber 5)); reflexivity.
Defined.

(** X5 on a file of one line that ends with a newline. *)
Lemma formatHoverResult_fallback_edge_witness :
  formatHoverResult posix (Some rangelessHover) barRequest 0 6 endingWorld
  = (ok (ok {| message :=
                 lit "Hover information for " ++ [DQUOTE] ++ lit "bar"
                   ++ [DQUOTE] ++ lit " at foo.ts:1:7";
               hover := Some
                 {| hover_contents :=
                      lit "const bar: number" ++ [LF] ++ lit "The sum.";
                    hover_range := Some
                      {| range_start := {| line := 1; character := 1 |};
                         range_end := {| line := 2; character := 0 |} |}
                 |} |}), endingWorld).
Proof.
  refine (@formatHoverResult_fallback_edge posix ServerState rangelessHover
            barRequest 0 6 endingWorld endingText eq_refl eq_refl _).
  right. exists (lit "const bar = 1;"). reflexivity.
Defined.

(** X6 on the text that the caller gets for [bar]. *)
Lemma lspGetHoverTool_execute_text_witness :
  fst (hoverExecute None barRequest hoverWorld)
  = ok (lit "No hover information available for " ++ [DQUOTE] ++ lit "bar"
          ++ [DQUOTE] ++ lit " at foo.ts:5:7")
  /\ fst (hoverExecute (Some numberHover) barRequest hoverWorld)
     = ok (lit "Hover information for " ++ [DQUOTE] ++ lit "bar"
             ++ [DQUOTE] ++ lit " at foo.ts:5:7" ++ [LF; LF]
             ++ lit "const bar: number")
  /\ fst (hoverExecute None missingFileRequest hoverWorld)
     = err (lit "ENOENT: no such file or directory")
  /\ fst (hoverExecute None barOnLine5 hoverWorld)
     = ok (lit "No hover information available for " ++ [DQUOTE] ++ lit "bar"
             ++ [DQUOTE] ++ lit " at foo.ts:5:7").
Proof.
  split; [|split; [|split]].
  - destruct (@lspGetHoverTool_execute_text posix ServerState
                client_openDocument (client_getHover None) parseLineNumber
                findSymbolInLine findTargetInFile barRequest hoverWorld)
      as (_ & H & _).
    refine (H fooText 4 6 [(fooUri, fooText)] [(fooUri, fooText)]
              _ eq_refl eq_refl).
    apply resolves_in_file; reflexivity.
  - destruct (@lspGetHoverTool_execute_text posix ServerState
                client_openDocument (client_getHover (Some numberHover))
                parseLineNumber findSymbolInLine findTargetInFile barRequest
                hoverWorld) as (_ & _ & H & _).
    refine (H fooText 4 6 [(fooUri, fooText)] [(fooUri, fooText)]
              numberHover
              {| range_start := {| line := 4; character := 6 |};
                 range_end := {| line := 4; character := 9 |} |}
              _ eq_refl eq_refl eq_refl).
    apply resolves_in_file; reflexivity.
  - destruct (@lspGetHoverTool_execute_text posix ServerState
                client_openDocument (client_getHover None) parseLineNumber
                findSymbolInLine findTargetInFile missingFileRequest
                hoverWorld) as (_ & _ & _ & H & _).
    exact (H _ eq_refl).
  - destruct (@lspGetHoverTool_execute_text posix ServerState
                client_openDocument (client_getHover None) parseLineNumber
                findSymbolInLine findTargetInFile barOnLine5 hoverWorld)
      as (H & _).
    exact (f_equal fst
             (H {| message :=
                     lit "No hover information available for " ++ [DQUOTE]
                       ++ lit "bar" ++ [DQUOTE] ++ lit " at foo.ts:5:7";
                   hover := None |}
                (snd (hoverTool None barOnLine5 hoverWorld)) eq_refl)).
Defined.

(** X7 on the import of [./util.js]. *)
Lemma importPaths_occur_witness :
  lit "./util.js" <> []
  /\ exists i before after,
      indexOf esmImporterLine (lit "./util.js") = Some i
      /\ esmImporterLine = before ++ lit "./util.js" ++ after
      /\ List.length before = i
      /\ forall replacement,
          replace esmImporterLine (lit "./util.js") replacement
          = before
              ++ getSubstitution (lit "./util.js") before after replacement
              ++ after.
Proof.
  destruct (@importPaths_occur esmImporterLine (lit "./util.js"))
    as (H1 & _ & _ & H4); [vm_compute; auto|].
  split; [exact H1 | exact H4].
Defined.

(** X8 on a file of two lines without imports. *)
Lemma analyzeImportChanges_no_keyword_witness :
  analyzeImportChanges posix plainFiles importer movedFrom movedTo
  = ok [lit "    Import statements updated"].
Proof.
  exact (proj2 (@analyzeImportChanges_no_keyword posix plainFiles importer
                  movedFrom movedTo
                  (lit "export const helper = 1;" ++ [LF] ++ lit "// done")
                  eq_refl eq_refl eq_refl eq_refl)).
Defined.

(** X9 on the importer of the moved file. *)
Lemma analyzeImportChanges_sound_witness :
  exists ms : list ReportedMatch,
    analyzeImportChanges posix reportFiles importer movedFrom movedTo
    = ok (flat_map
            (fun m =>
               [ lit "    @@ -" ++ String_of_nat (rm_lineNum m)
                   ++ lit ",1 +" ++ String_of_nat (rm_lineNum m)
                   ++ lit ",1 @@";
                 lit "    - "
                   ++ reconstructOldLine posix importer movedFrom (rm_line m)
                        (rm_importPath m);
                 lit "    + " ++ rm_line m ]) ms)
    /\ Forall (fun m =>
                 nth_error [lit "// b"; importerLine; []] (rm_lineNum m - 1)
                 = Some (rm_line m)) ms.
Proof.
  destruct (@analyzeImportChanges_sound posix reportFiles importer movedFrom
              movedTo (lit "// b" ++ [LF] ++ importerLine ++ [LF]) eq_refl)
    as [H | (ms & _ & E & F & _)].
  - vm_compute in H. discriminate.
  - exists ms. split; [exact E|].
    eapply Forall_impl; [|exact F]. intros m (_ & H & _). exact H.
Defined.

(** X11 on a reader that finds a text at the old place of the moved
    file. *)
Lemma formatMoveFileResult_reads_witness :
  formatMoveFileResult posix reportFiles moveResult movedFrom movedTo
    (lit "/p")
  = formatMoveFileResult posix reportFiles' moveResult movedFrom movedTo
      (lit "/p").
Proof.
  apply formatMoveFileResult_reads.
  intros file _ Hne. unfold reportFiles'.
  destruct (JS.eqb file movedFrom) eqn:E; [|reflexivity].
  apply eqb_spec in E. contradiction.
Defined.

(** X13 on the report of the move of [/p/a.ts]. *)
Lemma formatMoveFileResult_head_lines_witness :
  exists report,
    formatMoveFileResult posix reportFiles moveResult movedFrom movedTo
      (lit "/p") = ok report
    /\ firstn 3 (split_lines report)
       = [lit "Moved. Updated imports in 3 file(s)."; []; lit "Changes:"].
Proof.
  apply (@formatMoveFileResult_head_lines posix reportFiles moveResult
           movedFrom movedTo (lit "/p")).
  simpl. intuition discriminate.
Defined.

(** X14 on the conversion of [/p/util.js] to [/p/util.ts]. *)
Lemma handleMoveFile_success_witness :
  fst (fsHandle convert fsWorld)
  = ok (ok {| move_message := lit "Moved";
              changedFiles := [lit "/p/util.js"; lit "/p/main.ts"] |})
  /\ project_calls (snd (fsHandle convert fsWorld))
     = [FindProjectForFile (lit "/p/util.js");
        GetOrCreateSourceFileWithRefresh (lit "/p/util.js");
        MoveFile {| oldFilename := lit "/p/util.js";
                    newFilename := lit "/p/util.ts";
                    opt_overwrite := false |};
        Save]
  /\ disk (snd (fsHandle convert fsWorld))
     = [(lit "/p/util.ts", lit "export const helper = 1;");
        (lit "/p/main.ts", lit "import { helper } from './util.js';")].
Proof.
  unfold fsHandle.
  rewrite (@handleMoveFile_success posix unit FileSystem FileSystem fs_find
             fs_refresh fs_move fs_save convert fsWorld tt
             (memory fsWorld)
             ((lit "/p/util.js", lit "export const helper = 1;")
                :: memory fsWorld)
             [(lit "/p/util.ts", lit "export const helper = 1;");
              (lit "/p/main.ts", lit "import { helper } from './util.js';")]
             {| move_message := lit "Moved";
                changedFiles := [lit "/p/util.js"; lit "/p/main.ts"] |}
             [(lit "/p/util.ts", lit "export const helper = 1;");
              (lit "/p/main.ts", lit "import { helper } from './util.js';")]
             eq_refl eq_refl eq_refl eq_refl).
  repeat split.
Defined.

(** X15 on a project lookup that throws, a move primitive that throws
    and a save that is rejected. *)
Lemma handleMoveFile_rejections_witness :
  fst (handleMoveFile posix fs_find_throws fs_refresh fs_move fs_save
         convert fsWorld) = err (lit "no tsconfig")
  /\ fst (handleMoveFile posix fs_find fs_refresh fs_move_throws fs_save
            convert fsWorld) = err (lit "internal error")
  /\ (fst (handleMoveFile posix fs_find fs_refresh fs_move fs_save_rejects
             convert fsWorld) = err (lit "EACCES")
      /\ disk (snd (handleMoveFile posix fs_find fs_refresh fs_move
                      fs_save_rejects convert fsWorld)) = disk fsWorld).
Proof.
  split; [|split].
  - destruct (@handleMoveFile_rejections posix unit FileSystem FileSystem
                fs_find_throws fs_refresh fs_move fs_save convert fsWorld)
      as (H & _).
    rewrite (H (lit "no tsconfig") (memory fsWorld) eq_refl). reflexivity.
  - destruct (@handleMoveFile_rejections posix unit FileSystem FileSystem
                fs_find fs_refresh fs_move_throws fs_save convert fsWorld)
      as (_ & H & _).
    rewrite (H tt (memory fsWorld)
               ((lit "/p/util.js", lit "export const helper = 1;")
                  :: memory fsWorld)
               (lit "internal error")
               ((lit "/p/util.js", lit "export const helper = 1;")
                  :: memory fsWorld)
               eq_refl eq_refl eq_refl).
    reflexivity.
  - destruct (@handleMoveFile_rejections posix unit FileSystem FileSystem
                fs_find fs_refresh fs_move fs_save_rejects convert fsWorld)
      as (_ & _ & H).
    rewrite (H tt (memory fsWorld)
               ((lit "/p/util.js", lit "export const helper = 1;")
                  :: memory fsWorld)
               {| move_message := lit "Moved";
                  changedFiles := [lit "/p/util.js"; lit "/p/main.ts"] |}
               [(lit "/p/util.ts", lit "export const helper = 1;");
                (lit "/p/main.ts", lit "import { helper } from './util.js';")]
               (lit "EACCES") (disk fsWorld)
               eq_refl eq_refl eq_refl eq_refl).
    split; reflexivity.
Defined.

(** X16 on a move onto an existing file: no save, the disk as it was. *)
Lemma handleMoveFile_call_order_witness :
  disk (snd (fsHandle ontoMain fsWorld)) = disk fsWorld.
Proof.
  destruct (@handleMoveFile_call_order posix unit FileSystem FileSystem
              fs_find fs_refresh fs_move fs_save ontoMain fsWorld)
    as (n & Hn & _ & Hdisk & _ & Herr).
  apply Hdisk.
  destruct (Herr (lit "Destination exists") eq_refl) as [-> | ->]; lia.
Defined.

(** X17 on the same two moves, as the caller of the tool sees them. *)
Lemma moveFileTool_execute_outcome_witness :
  fst (fsExecute ontoMain fsWorld) = err (lit "Destination exists")
  /\ exists report,
      fst (fsExecute convert fsWorld) = ok report
      /\ formatMoveFileResult posix
           (readDisk (disk (snd (fsHandle convert fsWorld))))
           {| move_message := lit "Moved";
              changedFiles := [lit "/p/util.js"; lit "/p/main.ts"] |}
           (lit "/p/util.js") (lit "/p/util.ts") (lit "/p")
         = ok report.
Proof.
  split.
  - destruct (@moveFileTool_execute_outcome posix unit FileSystem FileSystem
                fs_find fs_refresh fs_move fs_save readDisk ontoMain fsWorld)
      as (_ & H & _).
    apply H. right. reflexivity.
  - destruct (@moveFileTool_execute_outcome posix unit FileSystem FileSystem
                fs_find fs_refresh fs_move fs_save readDisk convert fsWorld)
      as (_ & _ & H).
    exact (H _ eq_refl).
Defined.

(** X18 on [from './a'] followed by a semicolon. *)
Lemma matchHere_iff_witness :
  exists len, matchHere (lit "from './a';") = Some (lit "./a", len).
Proof.
  apply (proj2 (matchHere_iff (lit "from './a';") (lit "./a"))).
  exists (lit "from"), (lit " "), [], APOSTROPHE, APOSTROPHE, (lit ";").
  repeat split; auto. simpl; auto. discriminate.
Defined.

(** X19 on the two fragments of a hover. *)
Lemma formatHoverContents_arrays_witness :
  split_lines
    (formatHoverContents
       (ContentsArray
          [MarkedCode (lit "typescript") (lit "const bar: number");
           MarkedPlain (lit "The sum.")]))
  = [lit "const bar: number"; lit "The sum."].
Proof.
  destruct (formatHoverContents_arrays
              [MarkedCode (lit "typescript") (lit "const bar: number");
               MarkedPlain (lit "The sum.")] []) as (_ & _ & H).
  apply H; [discriminate|].
  repeat constructor; simpl; intuition discriminate.
Defined.

(** X12 on the import of [./sub/a] in [/p/b.ts]: [./a.ts] is put in its
    place. *)
Lemma reconstructOldLine_specifier_witness :
  exists before after specifier,
    importerLine = before ++ lit "./sub/a" ++ after
    /\ indexOf importerLine (lit "./sub/a") = Some (List.length before)
    /\ reconstructOldLine posix importer movedFrom importerLine
         (lit "./sub/a")
       = before ++ specifier ++ after
    /\ startsWith specifier (lit ".") = true
    /\ ~ In BACKSLASH specifier.
Proof.
  apply (@reconstructOldLine_specifier posix importer movedFrom importerLine
           (lit "./sub/a")).
  - vm_compute. auto.
  - vm_compute. intuition discriminate.
Defined.

